(** * GIF resize service: the pipeline and its HTTP handler (back/app.py)

    A shallow embedding of [optimize_gif_with_pillow_and_gifsicle] and
    [optimize_gif_endpoint].  The scratch directory is a finite map from
    paths to file contents; Pillow, gifsicle, the clock and the other
    collaborators the program calls are fields of an environment record
    that every theorem quantifies over; exceptions are values of a sum
    type threaded through a state-and-exception monad, so that
    [try]/[except]/[finally] are written as the source writes them. *)

From Stdlib Require Import ZArith String Ascii List Lia DecimalString ZifyNat.
From stdpp Require Import gmap strings list.

Import ListNotations.
Local Open Scope string_scope.
Local Open Scope Z_scope.

(** ** Python values *)

Abbreviation bytes := (list Byte.byte).

(** The exceptions the program raises, catches or lets through.  Every
    constructor is a subclass of Python's [Exception]; [FileNotFoundError]
    is a subclass of [OSError].  The payload of the last five is the
    [str()] rendering of the exception. *)
Inductive exn : Type :=
| CalledProcessError (returncode : Z) (stderr : string)
| TimeoutExpired (msg : string)
| FileNotFoundError (msg : string)
| OSError (msg : string)
| ValueError (msg : string)
| OtherException (msg : string).

Definition exn_str (e : exn) : string :=
  match e with
  | CalledProcessError rc _ =>
      "Command returned non-zero exit status "
        ++ NilZero.string_of_int (Z.to_int rc) ++ "."
  | TimeoutExpired m | FileNotFoundError m | OSError m
  | ValueError m | OtherException m => m
  end.

(** [isinstance(e, OSError)] *)
Definition is_OSError (e : exn) : bool :=
  match e with
  | FileNotFoundError _ | OSError _ => true
  | _ => false
  end.

(** [str(n)] for an int. *)
Definition str_int (n : Z) : string := NilZero.string_of_int (Z.to_int n).

(** ** A state-and-exception monad

    A computation runs on a state and ends in a new state together with
    either a raised exception or a value. *)
Module PyMonad.

Definition M (S A : Type) : Type := S -> S * (exn + A).

Definition ret {S A} (a : A) : M S A := fun s => (s, inr a).

Definition raise {S A} (e : exn) : M S A := fun s => (s, inl e).

Definition bind {S A B} (m : M S A) (k : A -> M S B) : M S B :=
  fun s =>
    match m s with
    | (s', inl e) => (s', inl e)
    | (s', inr a) => k a s'
    end.

(** [try: m  except Exception as e: h e] *)
Definition try_except {S A} (m : M S A) (h : exn -> M S A) : M S A :=
  fun s =>
    match m s with
    | (s', inl e) => h e s'
    | (s', inr a) => (s', inr a)
    end.

(** [try: m  finally: c]: the clean-up runs on every exit of [m]; an
    exception of the clean-up replaces the outcome of [m]. *)
Definition try_finally {S A} (m : M S A) (c : M S unit) : M S A :=
  fun s =>
    match m s with
    | (s', r) =>
        match c s' with
        | (s'', inl e) => (s'', inl e)
        | (s'', inr _) => (s'', r)
        end
    end.

End PyMonad.
Import PyMonad.

Notation "'let*' x ':=' m 'in' k" := (bind m (fun x => k))
  (at level 10, x name, m at level 100, k at level 200, only parsing).
Notation "m ';;;' k" := (bind m (fun _ => k))
  (at level 100, k at level 200, right associativity, only parsing).

(** ** [base64.b64encode] (RFC 4648, standard alphabet, with padding) *)
Module Base64.

Definition alphabet : string :=
  "ABCDEFGHIJKLMNOPQRSTUVWXYZabcdefghijklmnopqrstuvwxyz0123456789+/".

Definition digit (n : N) : ascii :=
  match String.get (N.to_nat n) alphabet with
  | Some c => c
  | None => "="%char
  end.

(** Three input bytes make 24 bits, written as four 6-bit digits; a
    last group of one or two bytes is padded with [=]. *)
Fixpoint encode (data : bytes) : string :=
  match data with
  | [] => ""
  | [a] =>
      let n := N.shiftl (Byte.to_N a) 16 in
      String (digit (N.shiftr n 18))
        (String (digit (N.land (N.shiftr n 12) 63)) "==")
  | [a; b] =>
      let n := N.lor (N.shiftl (Byte.to_N a) 16) (N.shiftl (Byte.to_N b) 8) in
      String (digit (N.shiftr n 18))
        (String (digit (N.land (N.shiftr n 12) 63))
           (String (digit (N.land (N.shiftr n 6) 63)) "="))
  | a :: b :: c :: rest =>
      let n := N.lor (N.lor (N.shiftl (Byte.to_N a) 16)
                            (N.shiftl (Byte.to_N b) 8)) (Byte.to_N c) in
      String (digit (N.shiftr n 18))
        (String (digit (N.land (N.shiftr n 12) 63))
           (String (digit (N.land (N.shiftr n 6) 63))
              (String (digit (N.land n 63)) (encode rest))))
  end.

End Base64.

(** [base64.b64encode(data).decode('utf-8')] *)
Definition b64encode (data : bytes) : string := Base64.encode data.

Definition bytes_of_string (s : string) : bytes := list_byte_of_string s.

(** ** Animated images (what Pillow hands to the program)

    A decoded image is the list of its frames; [img.n_frames] is its
    length and [img.seek(i); img.copy()] is its [i]-th frame.  [img.info]
    is the metadata of the frame the image is positioned at, which after
    [Image.open] is frame 0. *)
Record Frame : Type := {
  pixels : bytes;
  frame_duration : option Z      (* the 'duration' key of the frame's info *)
}.

Abbreviation Image := (list Frame).

Definition n_frames (img : Image) : nat := length img.

(** [img.info.get('duration', 100)] right after [Image.open] *)
Definition info_get_duration (img : Image) (default : Z) : Z :=
  match img with
  | f :: _ => match frame_duration f with Some d => d | None => default end
  | [] => default
  end.

(** The keyword arguments of [frames[0].save(path, save_all=True, ...)]. *)
Record SaveCall : Type := {
  first_frame : Frame;
  save_all : bool;
  append_images : list Frame;
  duration : Z;
  loop : Z;
  optimize : bool
}.

(** The frames a save call writes: the receiver, then [append_images]. *)
Definition saved_frames (c : SaveCall) : list Frame :=
  first_frame c :: append_images c.

(** Lines 52-58: [for i in range(img.n_frames): if i % 2 == 0: ...append]. *)
Definition keep_even (img : Image) (frames : list Frame) (i : nat) : list Frame :=
  if (i mod 2 =? 0)%nat then
    match img !! i with
    | Some f => frames ++ [f]
    | None => frames
    end
  else frames.

Definition select_frames (img : Image) : list Frame :=
  fold_left (keep_even img) (seq 0 (n_frames img)) [].

(** Lines 53-72 up to the call of [save]: the duration, the frames kept,
    the emptiness check and the arguments of the save. *)
Definition reduce_frames (img : Image) : exn + SaveCall :=
  let original_duration := info_get_duration img 100 in
  let frames := select_frames img in
  let new_duration := original_duration * 2 in
  match frames with
  | [] => inl (ValueError "Could not extract valid frames from GIF.")
  | f0 :: tl =>
      inr {| first_frame := f0;
             save_all := true;
             append_images := if (1 <? length frames)%nat then tl else [];
             duration := new_duration;
             loop := 0;
             optimize := false |}
  end.

(** ** The world outside the program *)

(** The scratch storage and whatever else the collaborators keep. *)
Record World : Type := {
  fs : gmap string bytes;      (* files by path *)
  locked : gset string;        (* paths whose removal the OS refuses *)
  ext : nat                    (* state private to the collaborators *)
}.

(** Calls the program makes to the outside, in order. *)
Inductive event : Type :=
| EvTime
| EvWrite (path : string) (data : bytes)
| EvImageOpen (path : string)
| EvImageSave (path : string) (call : SaveCall)
| EvRun (command : list string)
| EvExists (path : string)
| EvRead (path : string)
| EvRemove (path : string).

Record State : Type := {
  world : World;
  trace : list event
}.

(** The collaborators.  Each may read and change the world and may raise.
    [time_str] is [str(time.time())]; [py_int] is [int(s)] on a [str],
    [None] where it raises [ValueError]; [str_strip] is [str.strip]; the
    decoder is eager: what Pillow would raise lazily at [n_frames], [seek]
    or [copy] is raised by [Image_open]. *)
Record Env : Type := {
  time_str : World -> World * string;
  write_file : string -> bytes -> World -> World * (exn + unit);
  Image_open : string -> World -> World * (exn + Image);
  Image_save : string -> SaveCall -> World -> World * (exn + unit);
  subprocess_run : list string -> option Z -> World -> World * (exn + unit);
  read_file : string -> World -> World * (exn + bytes);
  secure_filename : string -> string;
  py_int : string -> option Z;
  str_strip : string -> string
}.

(** ** Small string helpers *)

(** [s.replace('.', '')] *)
Fixpoint remove_dots (s : string) : string :=
  match s with
  | EmptyString => EmptyString
  | String c r =>
      if Ascii.eqb c "."%char then remove_dots r else String c (remove_dots r)
  end.

Definition is_empty_string (s : string) : bool :=
  match s with EmptyString => true | _ => false end.

(** The double-quote character. *)
Definition dquote : string :=
  String (Ascii false true false false false true false false) EmptyString.

Definition TEMP_DIR : string := "temp_gifsicle_data".

(** [os.path.join(TEMP_DIR, name)] *)
Definition path_join (dir name : string) : string := dir ++ "/" ++ name.

(** ** The pipeline (lines 29-109) *)
Section Pipeline.

Variable env : Env.
Variable GIFSICLE_AVAILABLE : bool.

(** A call to the outside: the world changes as the collaborator says
    and the call is appended to the trace. *)
Definition call {A} (e : event) (op : World -> World * (exn + A))
  : M State A :=
  fun st =>
    let (w, r) := op (world st) in
    ({| world := w; trace := trace st ++ [e] |}, r).

Definition lift {A} (r : exn + A) : M State A :=
  match r with
  | inl e => raise e
  | inr a => ret a
  end.

Definition time_time : M State string :=
  call EvTime (fun w => let (w', s) := time_str env w in (w', inr s)).

Definition open_wb_write (path : string) (data : bytes) : M State unit :=
  call (EvWrite path data) (write_file env path data).

Definition PIL_Image_open (path : string) : M State Image :=
  call (EvImageOpen path) (Image_open env path).

Definition PIL_save (path : string) (c : SaveCall) : M State unit :=
  call (EvImageSave path c) (Image_save env path c).

Definition run_checked (command : list string) (timeout : option Z)
  : M State unit :=
  call (EvRun command) (subprocess_run env command timeout).

Definition open_rb_read (path : string) : M State bytes :=
  call (EvRead path) (read_file env path).

(** [os.path.exists(path)] *)
Definition os_path_exists (path : string) : M State bool :=
  call (EvExists path)
       (fun w => (w, inr (bool_decide (is_Some (fs w !! path))))).

(** [os.remove(path)]: the file goes, or [OSError] is raised and the
    file stays. *)
Definition remove_in (path : string) (w : World) : World * (exn + unit) :=
  if bool_decide (path ∈ locked w) then
    (w, inl (OSError "Permission denied"))
  else
    match fs w !! path with
    | Some _ =>
        ({| fs := delete path (fs w); locked := locked w; ext := ext w |},
         inr tt)
    | None => (w, inl (FileNotFoundError "No such file or directory"))
    end.

Definition os_remove (path : string) : M State unit :=
  call (EvRemove path) (remove_in path).

(** Lines 19-24: the probe run once at start-up. *)
Definition detect_gifsicle : M State bool :=
  try_except
    (run_checked ["gifsicle"; "--version"] None ;;; ret true)
    (fun e =>
       match e with
       | CalledProcessError _ _ | FileNotFoundError _ => ret false
       | _ => raise e
       end).

Definition unavailable_message : string :=
  "Gifsicle command is unavailable. Please check the server environment.".

(** Line 37 *)
Definition unique_id_of (reading : string) : string := remove_dots reading.

(** Lines 38-40 *)
Definition input_filename_full (unique_id : string) : string :=
  path_join TEMP_DIR ("temp_in_full_" ++ unique_id ++ ".gif").
Definition temp_filename_reduced (unique_id : string) : string :=
  path_join TEMP_DIR ("temp_reduced_" ++ unique_id ++ ".gif").
Definition output_filename (unique_id : string) : string :=
  path_join TEMP_DIR ("temp_out_" ++ unique_id ++ ".gif").

Definition scratch_files (unique_id : string) : list string :=
  [input_filename_full unique_id; temp_filename_reduced unique_id;
   output_filename unique_id].

(** Lines 75-83 *)
Definition command (lossy_value colors_value : Z) (unique_id : string)
  : list string :=
  ["gifsicle"; "-O3"; "--lossy=" ++ str_int lossy_value;
   "--colors"; str_int colors_value;
   temp_filename_reduced unique_id; "-o"; output_filename unique_id].

(** Lines 46-93: the body of the [try]. *)
Definition try_body (input_bytes : bytes) (lossy_value colors_value : Z)
  (unique_id : string) : M State bytes :=
  open_wb_write (input_filename_full unique_id) input_bytes ;;;
  let* img := PIL_Image_open (input_filename_full unique_id) in
  let* c := lift (reduce_frames img) in
  PIL_save (temp_filename_reduced unique_id) c ;;;
  run_checked (command lossy_value colors_value unique_id) (Some 90) ;;;
  let* created := os_path_exists (output_filename unique_id) in
  if negb created then
    raise (FileNotFoundError "Gifsicle output file was not created.")
  else open_rb_read (output_filename unique_id).

(** Lines 95-99: the two [except] clauses; they set [error_message] and
    leave [optimized_bytes] at [None]. *)
Definition except_clauses (e : exn) : M State (option bytes * option string) :=
  match e with
  | CalledProcessError rc err =>
      let std_error := str_strip env err in
      ret (None,
           Some ("Gifsicle execution error (Code " ++ str_int rc ++ "): "
                 ++ (if is_empty_string std_error
                     then "Unknown Gifsicle error" else std_error)))
  | _ =>
      ret (None, Some ("Unexpected error during processing: " ++ exn_str e))
  end.

(** Lines 103-107: one round of the clean-up loop. *)
Definition remove_if_exists (filename : string) : M State unit :=
  let* found := os_path_exists filename in
  if found then
    try_except (os_remove filename)
               (fun e => if is_OSError e then ret tt else raise e)
  else ret tt.

Fixpoint for_each (l : list string) (f : string -> M State unit)
  : M State unit :=
  match l with
  | [] => ret tt
  | x :: r => f x ;;; for_each r f
  end.

(** Lines 100-107: the [finally] block. *)
Definition cleanup (unique_id : string) : M State unit :=
  for_each (scratch_files unique_id) remove_if_exists.

(** Lines 42-99: the [try] with its [except] clauses, without the
    [finally]. *)
Definition guarded_body (input_bytes : bytes) (lossy_value colors_value : Z)
  (unique_id : string) : M State (option bytes * option string) :=
  try_except
    (let* optimized_bytes :=
       try_body input_bytes lossy_value colors_value unique_id in
     ret (Some optimized_bytes, None))
    except_clauses.

Definition optimize_gif_with_pillow_and_gifsicle
  (input_bytes : bytes) (lossy_value colors_value : Z)
  : M State (option bytes * option string) :=
  if negb GIFSICLE_AVAILABLE then ret (None, Some unavailable_message)
  else
    let* reading := time_time in
    let unique_id := unique_id_of reading in
    try_finally
      (guarded_body input_bytes lossy_value colors_value unique_id)
      (cleanup unique_id).

(** The state in which the [try] statement of an invocation started in
    [st] begins: the clock was read. *)
Definition after_clock (st : State) : State :=
  {| world := fst (time_str env (world st)); trace := trace st ++ [EvTime] |}.

(** The identifier the invocation started in [st] uses. *)
Definition id_in (st : State) : string :=
  unique_id_of (snd (time_str env (world st))).

End Pipeline.

(** ** The request handler (lines 113-179) *)

(** JSON-able Python values the handler puts in a result entry. *)
Inductive pyval : Type :=
| PyNone
| PyInt (n : Z)
| PyStr (s : string).

(** A dict literal: its keys in source order, each with its value. *)
Abbreviation pydict := (list (string * pyval)).

Definition dict_get (d : pydict) (key : string) : option pyval :=
  snd <$> find (fun kv => String.eqb (fst kv) key) d.

Definition has_key (d : pydict) (key : string) : bool :=
  bool_decide (is_Some (dict_get d key)).

Definition of_option {A} (f : A -> pyval) (o : option A) : pyval :=
  match o with
  | Some a => f a
  | None => PyNone
  end.

(** The body handed to [jsonify]. *)
Inductive json_body : Type :=
| ErrorBody (message : string)          (* {'error': message} *)
| ResultsBody (results : list pydict).  (* {'results': results} *)

(** One uploaded part: [file.filename], [file.mimetype], [file.read()]. *)
Record FileStorage : Type := {
  filename : string;
  mimetype : string;
  content : bytes
}.

Record Request : Type := {
  files_file : list FileStorage;    (* request.files.getlist('file') *)
  form : gmap string string         (* request.form *)
}.

(** Truth value of an [Optional[bytes]] and of an [Optional[str]]. *)
Definition truthy_bytes (o : option bytes) : bool :=
  match o with
  | Some (_ :: _) => true
  | _ => false
  end.

Definition truthy_str (o : option string) : bool :=
  match o with
  | Some (String _ _) => true
  | _ => false
  end.

Definition clamp_lossy (v : Z) : Z := Z.max 0 (Z.min 300 v).
Definition clamp_colors (v : Z) : Z := Z.max 2 (Z.min 256 v).

Definition no_files_message : string :=
  "No files found under the expected " ++ dquote ++ "file" ++ dquote ++ " key.".

Definition invalid_settings_message : string :=
  "Invalid optimization settings value.".

Section Handler.

Variable env : Env.

(** The handler is written over the pipeline it calls and over the
    state that pipeline runs on. *)
Context {St : Type}.
Variable pipeline : bytes -> Z -> Z -> M St (option bytes * option string).

(** [int(request.form.get(key, default))] *)
Definition int_form_get (req : Request) (key : string) (default : Z)
  : exn + Z :=
  match form req !! key with
  | None => inr default
  | Some s =>
      match py_int env s with
      | Some v => inr v
      | None => inl (ValueError "invalid literal for int() with base 10")
      end
  end.

(** Lines 125-130: the body of the settings [try]. *)
Definition parse_settings (req : Request) : exn + Z * Z :=
  match int_form_get req "lossy" 200 with
  | inl e => inl e
  | inr lossy_val =>
      match int_form_get req "colors" 64 with
      | inl e => inl e
      | inr colors_val =>
          inr (clamp_lossy lossy_val, clamp_colors colors_val)
      end
  end.

(** Lines 145-152: the entry of a part that is not a GIF. *)
Definition rejected_entry (file : FileStorage) : pydict :=
  [("filename", PyStr (secure_filename env (filename file)));
   ("original_size", PyInt (Z.of_nat (length (content file))));
   ("error", PyStr ("File is not a GIF file (" ++ mimetype file ++ ")."));
   ("optimized_data", PyNone)].

(** Lines 161-176: the entry built from what the pipeline returned. *)
Definition pipeline_entry (file : FileStorage)
  (r : option bytes * option string) : pydict :=
  let (optimized_data, error) := r in
  let encoded :=
    if truthy_bytes optimized_data && negb (truthy_str error) then
      (b64encode <$> optimized_data,
       (fun d => Z.of_nat (length d)) <$> optimized_data)
    else (None, None) in
  [("filename", PyStr (secure_filename env (filename file)));
   ("original_size", PyInt (Z.of_nat (length (content file))));
   ("optimized_data", of_option PyStr (fst encoded));
   ("optimized_size", of_option PyInt (snd encoded));
   ("error", of_option PyStr error)].

(** Lines 139-176: one round of the loop over the uploaded files. *)
Definition process_file (lossy_val colors_val : Z) (file : FileStorage)
  : M St pydict :=
  let input_bytes := content file in
  if negb (String.eqb (mimetype file) "image/gif") then
    ret (rejected_entry file)
  else
    let* r := pipeline input_bytes lossy_val colors_val in
    ret (pipeline_entry file r).

(** Lines 135-176: the loop, appending to [results]. *)
Fixpoint process_files (lossy_val colors_val : Z)
  (uploaded_files : list FileStorage) (results : list pydict)
  : M St (list pydict) :=
  match uploaded_files with
  | [] => ret results
  | file :: rest =>
      let* entry := process_file lossy_val colors_val file in
      process_files lossy_val colors_val rest (results ++ [entry])
  end.

Definition endpoint_with (req : Request) : M St (json_body * Z) :=
  match files_file req with
  | [] => ret (ErrorBody no_files_message, 400)
  | _ :: _ =>
      match parse_settings req with
      | inl (ValueError _) => ret (ErrorBody invalid_settings_message, 400)
      | inl e => raise e
      | inr (lossy_val, colors_val) =>
          let* results :=
            process_files lossy_val colors_val (files_file req) [] in
          ret (ResultsBody results, 200)
      end
  end.

End Handler.

(** The endpoint of the program: the handler over the real pipeline. *)
Definition optimize_gif_endpoint (env : Env) (GIFSICLE_AVAILABLE : bool)
  (req : Request) : M State (json_body * Z) :=
  endpoint_with env
    (optimize_gif_with_pillow_and_gifsicle env GIFSICLE_AVAILABLE) req.

(** A pipeline that does nothing but record the arguments of each call;
    running the handler over it shows what the handler passes on. *)
Definition recording_pipeline (input_bytes : bytes) (lossy_value colors_value : Z)
  : M (list (bytes * Z * Z)) (option bytes * option string) :=
  fun calls =>
    ((calls ++ [(input_bytes, lossy_value, colors_value)])%list,
     inr (None, Some "recorded")).

(** A setting as the specification words it: a missing field takes its
    default, a present field is parsed and clamped to [lo, hi], and a
    field that does not parse has no value. *)
Definition effective_setting (env : Env) (field : option string)
  (default lo hi : Z) : option Z :=
  match field with
  | None => Some default
  | Some s =>
      match py_int env s with
      | Some v => Some (if v <? lo then lo else if hi <? v then hi else v)
      | None => None
      end
  end.

Definition is_gif (file : FileStorage) : bool :=
  String.eqb (mimetype file) "image/gif".

(** ** A reference environment

    A small executable world used to run the program on concrete inputs:
    a file holds one byte per frame, the encoder writes the pixels of the
    frames it is given, and the optimizer stands for gifsicle. *)
Module Sim.

Definition set_fs (w : World) (m : gmap string bytes) : World :=
  {| fs := m; locked := locked w; ext := ext w |}.

Definition decode (data : bytes) : exn + Image :=
  match data with
  | [] => inl (OSError "cannot identify image file")
  | _ => inr (map (fun b => {| pixels := [b]; frame_duration := Some 40 |}) data)
  end.

Definition encode (c : SaveCall) : bytes :=
  concat (map pixels (saved_frames c)).

Definition write (path : string) (data : bytes) (w : World)
  : World * (exn + unit) :=
  (set_fs w (<[path := data]> (fs w)), inr tt).

Definition read (path : string) (w : World) : World * (exn + bytes) :=
  match fs w !! path with
  | Some d => (w, inr d)
  | None => (w, inl (FileNotFoundError "No such file or directory"))
  end.

Definition image_open (path : string) (w : World) : World * (exn + Image) :=
  match fs w !! path with
  | Some d => (w, decode d)
  | None => (w, inl (FileNotFoundError "No such file or directory"))
  end.

Definition image_save (path : string) (c : SaveCall) (w : World)
  : World * (exn + unit) :=
  (set_fs w (<[path := encode c]> (fs w)), inr tt).

(** An optimizer that is installed: [gifsicle ... input -o output]
    writes [out] of the input file and exits 0; any other command line
    (the version probe) exits 0 and writes nothing. *)
Definition gifsicle (out : bytes -> bytes) (command : list string)
  (timeout : option Z) (w : World) : World * (exn + unit) :=
  match command with
  | [_; _; _; _; _; input; _; output] =>
      match fs w !! input with
      | Some d => (set_fs w (<[output := out d]> (fs w)), inr tt)
      | None => (w, inl (CalledProcessError 1 "gifsicle: No such file"))
      end
  | _ => (w, inr tt)
  end.

(** An optimizer that is installed and fails on every image. *)
Definition broken_gifsicle (command : list string) (timeout : option Z)
  (w : World) : World * (exn + unit) :=
  match command with
  | [_; _; _; _; _; _; _; _] =>
      (w, inl (CalledProcessError 1 " gifsicle: bad image  "))
  | _ => (w, inr tt)
  end.

(** An optimizer that is not installed. *)
Definition no_gifsicle (command : list string) (timeout : option Z)
  (w : World) : World * (exn + unit) :=
  (w, inl (FileNotFoundError "No such file or directory: 'gifsicle'")).

(** A clock that advances at every reading. *)
Definition ticking (w : World) : World * string :=
  ({| fs := fs w; locked := locked w; ext := S (ext w) |},
   "1700000000." ++ str_int (Z.of_nat (ext w))).

(** A clock read twice within its resolution. *)
Definition frozen (w : World) : World * string := (w, "1700000000.5").

Fixpoint lstrip (s : string) : string :=
  match s with
  | String c r => if Ascii.is_space c then lstrip r else s
  | EmptyString => EmptyString
  end.

Definition strip (s : string) : string :=
  String.rev (lstrip (String.rev (lstrip s))).

(** Decimal literals with an optional minus sign. *)
Definition parse_int (s : string) : option Z :=
  Z.of_int <$> NilZero.int_of_string s.

Definition make (clock : World -> World * string)
  (optimizer : list string -> option Z -> World -> World * (exn + unit))
  : Env :=
  {| time_str := clock;
     write_file := write;
     Image_open := image_open;
     Image_save := image_save;
     subprocess_run := optimizer;
     read_file := read;
     secure_filename := fun s => s;
     py_int := parse_int;
     str_strip := strip |}.

Definition env : Env := make ticking (gifsicle (fun d => d)).

Definition empty_world : World := {| fs := ∅; locked := ∅; ext := 0 |}.
Definition start : State := {| world := empty_world; trace := [] |}.

(** A four-frame and a one-frame input. *)
Definition gif4 : bytes := bytes_of_string "abcd".
Definition gif1 : bytes := bytes_of_string "a".

Definition upload (name mime : string) (data : bytes) : FileStorage :=
  {| filename := name; mimetype := mime; content := data |}.

End Sim.

(** ** What one invocation may ask of the outside

    The calls an invocation with identifier [uid] makes on [input_bytes]
    with the given settings: each names one of the invocation's own
    scratch files, and the only command is the gifsicle command line. *)
Definition own_event (input_bytes : bytes) (lossy_value colors_value : Z)
  (uid : string) (ev : event) : Prop :=
  match ev with
  | EvTime => True
  | EvWrite p d => p = input_filename_full uid /\ d = input_bytes
  | EvImageOpen p => p = input_filename_full uid
  | EvImageSave p _ => p = temp_filename_reduced uid
  | EvRun cmd => cmd = command lossy_value colors_value uid
  | EvExists p | EvRemove p => p ∈ scratch_files uid
  | EvRead p => p = output_filename uid
  end.

(** The calls of the body of the [try] when every step succeeds. *)
Definition body_events (input_bytes : bytes) (lossy_value colors_value : Z)
  (uid : string) (c : SaveCall) : list event :=
  [EvWrite (input_filename_full uid) input_bytes;
   EvImageOpen (input_filename_full uid);
   EvImageSave (temp_filename_reduced uid) c;
   EvRun (command lossy_value colors_value uid);
   EvExists (output_filename uid);
   EvRead (output_filename uid)].

(** Lines 95-99 as a function of the exception: the text the [except]
    clauses store in [error_message]. *)
Definition error_message_of (env : Env) (e : exn) : string :=
  match e with
  | CalledProcessError rc err =>
      "Gifsicle execution error (Code " ++ str_int rc ++ "): "
        ++ (if is_empty_string (str_strip env err)
            then "Unknown Gifsicle error" else str_strip env err)
  | _ => "Unexpected error during processing: " ++ exn_str e
  end.

(** A call of the clean-up loop over the paths [l]. *)
Definition cleanup_event (l : list string) (ev : event) : Prop :=
  exists p, p ∈ l /\ (ev = EvExists p \/ ev = EvRemove p).

(** A call made for one of the GIF parts of a request, with the
    request's settings. *)
Definition request_event (files : list FileStorage) (lossy_val colors_val : Z)
  (ev : event) : Prop :=
  exists file uid,
    file ∈ files /\ is_gif file = true
    /\ own_event (content file) lossy_val colors_val uid ev.

(** The entry a file gets when the optimizer is not available. *)
Definition unavailable_entry (env : Env) (file : FileStorage) : pydict :=
  if is_gif file
  then pipeline_entry env file (None, Some unavailable_message)
  else rejected_entry env file.

(** ** Environments with faults *)
Module Faults.

(** [e] with another decoder. *)
Definition with_decoder (e : Env)
  (decoder : string -> World -> World * (exn + Image)) : Env :=
  {| time_str := time_str e;
     write_file := write_file e;
     Image_open := decoder;
     Image_save := Image_save e;
     subprocess_run := subprocess_run e;
     read_file := read_file e;
     secure_filename := secure_filename e;
     py_int := py_int e;
     str_strip := str_strip e |}.

(** A decoder that yields an image without frames. *)
Definition no_frames (path : string) (w : World) : World * (exn + Image) :=
  (w, inr []).

(** An optimizer that exits 0 and writes nothing. *)
Definition silent_gifsicle (command : list string) (timeout : option Z)
  (w : World) : World * (exn + unit) :=
  (w, inr tt).

(** An optimizer that prints nothing but blanks and exits 2. *)
Definition mute_gifsicle (command : list string) (timeout : option Z)
  (w : World) : World * (exn + unit) :=
  match command with
  | [_; _; _; _; _; _; _; _] => (w, inl (CalledProcessError 2 "  "))
  | _ => (w, inr tt)
  end.

(** An optimizer that does not finish in time. *)
Definition slow_gifsicle (command : list string) (timeout : option Z)
  (w : World) : World * (exn + unit) :=
  match command with
  | [_; _; _; _; _; _; _; _] =>
      (w, inl (TimeoutExpired "Command timed out after 90 seconds"))
  | _ => (w, inr tt)
  end.

(** A start-up probe that may not be executed. *)
Definition forbidden_gifsicle (command : list string) (timeout : option Z)
  (w : World) : World * (exn + unit) :=
  (w, inl (OSError "Permission denied: 'gifsicle'")).

End Faults.

(** ** An encoder that merges identical frames

    Pillow's GIF writer does not write a frame whose picture equals that
    of the frame written before it: it lengthens the earlier frame
    instead.  The encoder below does the same on the files of the
    reference environment (one byte per frame). *)
Module Merging.

Definition same_pixels (f g : Frame) : bool :=
  bool_decide (map Byte.to_N (pixels f) = map Byte.to_N (pixels g)).

Fixpoint merge_identical (prev : Frame) (rest : list Frame) : list Frame :=
  match rest with
  | [] => []
  | f :: r =>
      if same_pixels prev f then merge_identical prev r
      else f :: merge_identical f r
  end.

(** The frames the encoder writes for a save call. *)
Definition written_frames (c : SaveCall) : list Frame :=
  first_frame c :: merge_identical (first_frame c) (append_images c).

Definition save (path : string) (c : SaveCall) (w : World)
  : World * (exn + unit) :=
  Sim.write path (concat (map pixels (written_frames c))) w.

Definition env : Env :=
  {| time_str := Sim.ticking;
     write_file := Sim.write;
     Image_open := Sim.image_open;
     Image_save := save;
     subprocess_run := Sim.gifsicle (fun d => d);
     read_file := Sim.read;
     secure_filename := fun s => s;
     py_int := Sim.parse_int;
     str_strip := Sim.strip |}.

(** Three frames with the same picture. *)
Definition gif_aaa : bytes := bytes_of_string "aaa".

End Merging.

(** * Properties *)

(** ** Sanity checks of the helpers *)

Example b64_Man : b64encode (bytes_of_string "Man") = "TWFu".
Proof. reflexivity. Qed.
Example b64_Ma : b64encode (bytes_of_string "Ma") = "TWE=".
Proof. reflexivity. Qed.
Example b64_M : b64encode (bytes_of_string "M") = "TQ==".
Proof. reflexivity. Qed.
Example b64_GIF89a : b64encode (bytes_of_string "GIF89a") = "R0lGODlh".
Proof. reflexivity. Qed.
Example str_int_neg : str_int (-9) = "-9".
Proof. reflexivity. Qed.
Example str_int_zero : str_int 0 = "0".
Proof. reflexivity. Qed.

Example unique_id_example : unique_id_of "1700000000.5" = "17000000005".
Proof. reflexivity. Qed.

(** ** Runs in the reference environment *)

Example run_four_frames :
  snd (optimize_gif_with_pillow_and_gifsicle Sim.env true Sim.gif4 200 64
         Sim.start)
  = inr (Some (bytes_of_string "ac"), None).
Proof. vm_compute. reflexivity. Qed.

Example run_leaves_scratch_empty :
  fs (world (fst (optimize_gif_with_pillow_and_gifsicle Sim.env true Sim.gif4
                    200 64 Sim.start))) = ∅.
Proof. vm_compute. reflexivity. Qed.

Example run_undecodable_input :
  snd (optimize_gif_with_pillow_and_gifsicle Sim.env true [] 200 64 Sim.start)
  = inr (None,
         Some "Unexpected error during processing: cannot identify image file").
Proof. vm_compute. reflexivity. Qed.

Example run_failing_optimizer :
  snd (optimize_gif_with_pillow_and_gifsicle
         (Sim.make Sim.ticking Sim.broken_gifsicle) true Sim.gif4 200 64
         Sim.start)
  = inr (None, Some "Gifsicle execution error (Code 1): gifsicle: bad image").
Proof. vm_compute. reflexivity. Qed.

Example run_command_line :
  command 0 256 "17000000005"
  = ["gifsicle"; "-O3"; "--lossy=0"; "--colors"; "256";
     "temp_gifsicle_data/temp_reduced_17000000005.gif"; "-o";
     "temp_gifsicle_data/temp_out_17000000005.gif"].
Proof. reflexivity. Qed.

Example run_no_files :
  optimize_gif_endpoint Sim.env true {| files_file := []; form := ∅ |} Sim.start
  = (Sim.start, inr (ErrorBody no_files_message, 400)).
Proof. reflexivity. Qed.

Example run_bad_setting :
  optimize_gif_endpoint Sim.env true
    {| files_file := [Sim.upload "a.gif" "image/gif" Sim.gif4];
       form := {[ "colors" := "many" ]} |} Sim.start
  = (Sim.start, inr (ErrorBody invalid_settings_message, 400)).
Proof. vm_compute. reflexivity. Qed.

(** ** Frame selection *)

(** Linear arithmetic with division and remainder by constants. *)
Ltac div_lia := Zify.zify; Z.div_mod_to_equations; lia.

Ltac ltb_cases :=
  repeat match goal with
    | |- context [(?a <? ?b)%nat] =>
        let E := fresh "E" in
        destruct (a <? b)%nat eqn:E;
        [apply Nat.ltb_lt in E | apply Nat.ltb_ge in E]
    end.

Section Frames.

Implicit Types (img : Image) (frames : list Frame).

(** After the rounds [0..m-1] of the loop, [frames] holds the frames of
    [img] at the even indices below [m]. *)
Lemma select_prefix img (m : nat) :
  (m <= n_frames img)%nat ->
  let frames := fold_left (keep_even img) (seq 0 m) [] in
  length frames = ((m + 1) / 2)%nat /\
  forall k : nat,
    frames !! k = if (2 * k <? m)%nat then img !! (2 * k)%nat else None.
Proof.
  unfold n_frames. induction m as [|m IH]; intros Hm; cbn zeta.
  - split; [reflexivity|]. intros k. ltb_cases; [lia | reflexivity].
  - destruct IH as [Hlen Hget]; [lia|].
    rewrite seq_S, fold_left_app. cbn [fold_left Nat.add].
    set (frames := fold_left (keep_even img) (seq 0 m) []) in *.
    unfold keep_even.
    destruct (lookup_lt_is_Some_2 img m) as [f Hf]; [lia|].
    rewrite Hf.
    destruct (m mod 2 =? 0)%nat eqn:Hpar;
      [apply Nat.eqb_eq in Hpar | apply Nat.eqb_neq in Hpar].
    + split.
      * rewrite length_app, Hlen. cbn [length]. div_lia.
      * intros k.
        assert (Hl : length frames = (m / 2)%nat) by (rewrite Hlen; div_lia).
        destruct (decide (k < m / 2)%nat) as [Hk|Hk].
        -- rewrite lookup_app_l by lia. rewrite Hget.
           ltb_cases; try reflexivity; div_lia.
        -- rewrite lookup_app_r by lia. rewrite Hl.
           destruct (k - m / 2)%nat as [|j] eqn:Ej; cbn [lookup list_lookup].
           ++ assert (m = 2 * k)%nat as -> by div_lia.
              rewrite Hf. ltb_cases; [reflexivity | lia].
           ++ ltb_cases; [div_lia | by destruct j].
    + split.
      * rewrite Hlen. div_lia.
      * intros k. rewrite Hget.
        ltb_cases; try reflexivity; div_lia.
Qed.

Lemma select_frames_length img :
  length (select_frames img) = ((n_frames img + 1) / 2)%nat.
Proof. apply (select_prefix img (n_frames img)). lia. Qed.

Lemma select_frames_lookup img (k : nat) :
  select_frames img !! k = img !! (2 * k)%nat.
Proof.
  destruct (select_prefix img (n_frames img)) as [_ H]; [lia|].
  unfold select_frames. rewrite H.
  ltb_cases; [reflexivity|]. symmetry. by apply lookup_ge_None_2.
Qed.

Lemma select_frames_nonempty img :
  (1 <= n_frames img)%nat -> select_frames img <> [].
Proof.
  intros Hn Hnil. pose proof (select_frames_length img) as Hl.
  rewrite Hnil in Hl. cbn [length] in Hl. div_lia.
Qed.

(** What [reduce_frames] hands to the encoder. *)
Lemma reduce_frames_saved img (c : SaveCall) :
  reduce_frames img = inr c ->
  saved_frames c = select_frames img /\
  duration c = info_get_duration img 100 * 2 /\
  loop c = 0 /\ save_all c = true /\ optimize c = false.
Proof.
  unfold reduce_frames.
  destruct (select_frames img) as [|f0 tl] eqn:Hsel; [discriminate|].
  intros [= <-]. unfold saved_frames. cbn.
  split; [|done]. destruct tl; reflexivity.
Qed.

End Frames.

(** ** The clean-up loop *)
Section Cleanup.

Implicit Types (st : State) (w : World) (p q : string).

Lemma call_eq {A} (e : event) (op : World -> World * (exn + A)) st :
  call e op st =
    ({| world := fst (op (world st)); trace := trace st ++ [e] |},
     snd (op (world st))).
Proof. unfold call. by destruct (op (world st)). Qed.

(** [os.remove] raises nothing but [OSError]s. *)
Lemma remove_in_raises p w (e : exn) :
  snd (remove_in p w) = inl e -> is_OSError e = true.
Proof.
  unfold remove_in. case_bool_decide; [by intros [= <-]|].
  destruct (fs w !! p); [discriminate | by intros [= <-]].
Qed.

(** One round of the loop: it never raises, it leaves [locked] alone,
    it asks whether the file exists and, if so, tries to remove it; the
    file is gone afterwards unless the removal was refused. *)
Lemma remove_if_exists_spec p st :
  exists w',
    remove_if_exists p st =
      ({| world := w';
          trace := trace st ++ EvExists p ::
                     (if bool_decide (is_Some (fs (world st) !! p))
                      then [EvRemove p] else []) |},
       inr tt)
    /\ locked w' = locked (world st)
    /\ (forall q, q <> p -> fs w' !! q = fs (world st) !! q)
    /\ (p ∉ locked (world st) -> fs w' !! p = None)
    /\ (p ∈ locked (world st) -> fs w' !! p = fs (world st) !! p).
Proof.
  destruct st as [w tr].
  unfold remove_if_exists, bind, os_path_exists, try_except, os_remove.
  rewrite call_eq. cbn [fst snd world trace].
  case_bool_decide as Hex.
  - rewrite call_eq. cbn [fst snd world trace].
    rewrite <- app_assoc. cbn [app].
    unfold remove_in. destruct Hex as [d Hd].
    case_bool_decide as Hlock; cbn [fst snd is_OSError].
    + exists w. unfold ret. repeat split; auto. intros; contradiction.
    + rewrite Hd. cbn [fst snd]. eexists. split; [reflexivity|].
      cbn [fs locked]. repeat split; auto.
      * intros q Hq. by rewrite lookup_delete_ne.
      * intros _. by rewrite lookup_delete_eq.
      * intros; contradiction.
  - exists w. unfold ret. repeat split; auto.
    intros _. by apply eq_None_not_Some.
Qed.

(** The whole loop over a list of paths. *)
Lemma for_each_remove_spec (l : list string) st :
  exists w' evs,
    for_each l remove_if_exists st =
      ({| world := w'; trace := trace st ++ evs |}, inr tt)
    /\ locked w' = locked (world st)
    /\ (forall q, q ∉ l -> fs w' !! q = fs (world st) !! q)
    /\ (forall p, p ∈ l -> is_Some (fs w' !! p) -> p ∈ locked w')
    /\ (forall p, p ∈ l -> is_Some (fs (world st) !! p) -> EvRemove p ∈ evs)
    /\ (forall p, is_Some (fs w' !! p) -> is_Some (fs (world st) !! p)).
Proof.
  revert st. induction l as [|x r IH]; intros st.
  - exists (world st), []. destruct st as [w tr]. cbn. unfold ret.
    rewrite app_nil_r. repeat split; auto; intros p Hp; by inversion Hp.
  - destruct (remove_if_exists_spec x st)
      as (w1 & Hrun & Hlock1 & Hother1 & Hgone1 & Hkept1).
    destruct (IH {| world := w1;
                    trace := trace st ++ EvExists x ::
                      (if bool_decide (is_Some (fs (world st) !! x))
                       then [EvRemove x] else []) |})
      as (w2 & evs & Hrest & Hlock2 & Hother2 & Hleft2 & Hatt2 & Hsub2).
    exists w2, (EvExists x ::
                  (if bool_decide (is_Some (fs (world st) !! x))
                   then [EvRemove x] else []) ++ evs).
    cbn [for_each]. unfold bind at 1. rewrite Hrun, Hrest.
    cbn [world trace] in *.
    assert (Hsub1 : forall p, is_Some (fs w1 !! p) -> is_Some (fs (world st) !! p)).
    { intros p Hp. destruct (decide (p = x)) as [->|Hne].
      - destruct (decide (x ∈ locked (world st))) as [Hl|Hl].
        + by rewrite <- Hkept1.
        + rewrite Hgone1 in Hp by done. by destruct Hp.
      - by rewrite <- Hother1. }
    split; [by rewrite <- app_assoc|].
    split; [congruence|].
    split.
    { intros q Hq. rewrite not_elem_of_cons in Hq. destruct Hq as [Hqx Hqr].
      rewrite Hother2 by done. by apply Hother1. }
    split.
    { intros p Hp Hsome. rewrite Hlock2.
      destruct (decide (p ∈ r)) as [Hr|Hr].
      - rewrite <- Hlock2. by apply Hleft2.
      - rewrite elem_of_cons in Hp. destruct Hp as [->|Hp]; [|done].
        rewrite Hother2 in Hsome by done.
        destruct (decide (x ∈ locked (world st))) as [Hl|Hl]; [congruence|].
        rewrite Hgone1 in Hsome by done. by destruct Hsome. }
    split.
    { intros p Hp Hsome. rewrite elem_of_cons in Hp.
      destruct (decide (p = x)) as [->|Hne].
      - rewrite bool_decide_true by done.
        rewrite elem_of_cons, elem_of_app, list_elem_of_singleton. auto.
      - destruct Hp as [?|Hp]; [done|].
        rewrite elem_of_cons, elem_of_app. right. right.
        apply Hatt2; [done|]. by rewrite Hother1. }
    intros p Hp. by apply Hsub1, Hsub2.
Qed.

(** The [finally] block never raises: failures to delete are ignored. *)
Lemma cleanup_returns (unique_id : string) st :
  exists st', cleanup unique_id st = (st', inr tt).
Proof.
  destruct (for_each_remove_spec (scratch_files unique_id) st)
    as (w' & evs & H & _). eauto.
Qed.

End Cleanup.

(** ** The pipeline *)

(** Run the next call to the outside. *)
Ltac run_call := rewrite call_eq; cbn [world trace fst snd].

(** An event is in a trace written as a chain of appends. *)
Ltac in_trace :=
  rewrite !elem_of_app, ?list_elem_of_singleton; naive_solver.

Section PipelineFacts.

Variable env : Env.
Implicit Types (st : State) (input : bytes) (lossy colors : Z).

Lemma pipeline_available input lossy colors st :
  optimize_gif_with_pillow_and_gifsicle env true input lossy colors st =
    try_finally (guarded_body env input lossy colors (id_in env st))
                (cleanup (id_in env st)) (after_clock env st).
Proof.
  unfold optimize_gif_with_pillow_and_gifsicle, bind, time_time, id_in,
    after_clock.
  cbn [negb]. rewrite call_eq.
  by destruct (time_str env (world st)).
Qed.

(** The [except] clauses turn every exception into an error message and
    touch nothing. *)
Lemma except_clauses_returns (e : exn) st :
  exists msg, except_clauses env e st = (st, inr (None, Some msg)).
Proof. destruct e; cbn; unfold ret; eauto. Qed.

(** The [try] with its [except] clauses ends where its body ends, never
    raises, and sets exactly one of the two result variables. *)
Lemma guarded_body_returns input lossy colors (uid : string) st :
  exists r,
    guarded_body env input lossy colors uid st =
      (fst (try_body env input lossy colors uid st), inr r)
    /\ ((exists b, r = (Some b, None)
                  /\ snd (try_body env input lossy colors uid st) = inr b)
        \/ (exists msg, r = (None, Some msg))).
Proof.
  unfold guarded_body, try_except, bind.
  destruct (try_body env input lossy colors uid st) as [st1 [e|b]];
    cbn [fst snd].
  - destruct (except_clauses_returns e st1) as [msg ->]. eauto.
  - unfold ret. eauto 10.
Qed.

(** How every invocation that gets past the availability check runs:
    clock, guarded body, clean-up, and the result of the guarded body is
    the result of the call. *)
Lemma pipeline_runs input lossy colors st :
  exists r w' evs,
    optimize_gif_with_pillow_and_gifsicle env true input lossy colors st =
      ({| world := w';
          trace := trace (fst (try_body env input lossy colors (id_in env st)
                                 (after_clock env st))) ++ evs |}, inr r)
    /\ guarded_body env input lossy colors (id_in env st) (after_clock env st) =
         (fst (try_body env input lossy colors (id_in env st) (after_clock env st)),
          inr r)
    /\ for_each (scratch_files (id_in env st)) remove_if_exists
         (fst (try_body env input lossy colors (id_in env st) (after_clock env st))) =
         ({| world := w';
             trace := trace (fst (try_body env input lossy colors (id_in env st)
                                    (after_clock env st))) ++ evs |}, inr tt)
    /\ ((exists b, r = (Some b, None)) \/ (exists msg, r = (None, Some msg))).
Proof.
  destruct (guarded_body_returns input lossy colors (id_in env st) (after_clock env st))
    as (r & Hg & Hone).
  destruct (for_each_remove_spec (scratch_files (id_in env st))
              (fst (try_body env input lossy colors (id_in env st) (after_clock env st))))
    as (w' & evs & Hc & _).
  exists r, w', evs. rewrite pipeline_available.
  unfold try_finally, cleanup. rewrite Hg, Hc.
  repeat split; auto. destruct Hone as [(b & -> & _)|[msg ->]]; eauto.
Qed.

(** The pipeline never raises and fills exactly one slot. *)
Lemma pipeline_total (avail : bool) input lossy colors st :
  exists st' r,
    optimize_gif_with_pillow_and_gifsicle env avail input lossy colors st =
      (st', inr r)
    /\ ((exists b, r = (Some b, None)) \/ (exists msg, r = (None, Some msg))).
Proof.
  destruct avail.
  - destruct (pipeline_runs input lossy colors st) as (r & w' & evs & H & _ & _ & Hone).
    eauto.
  - unfold optimize_gif_with_pillow_and_gifsicle, ret. cbn [negb]. eauto 10.
Qed.

(** Once the input is written and decoded, the body asks the encoder to
    save what [reduce_frames] computed. *)
Lemma try_body_saves input lossy colors (uid : string) st (img : Image)
  (c : SaveCall) (w1 w2 : World) :
  write_file env (input_filename_full uid) input (world st) = (w1, inr tt) ->
  Image_open env (input_filename_full uid) w1 = (w2, inr img) ->
  reduce_frames img = inr c ->
  EvImageSave (temp_filename_reduced uid) c
    ∈ trace (fst (try_body env input lossy colors uid st)).
Proof.
  intros Hw Ho Hr.
  unfold try_body, bind, open_wb_write, PIL_Image_open, PIL_save,
    run_checked, os_path_exists, open_rb_read, raise.
  run_call. rewrite Hw. cbn [world trace fst snd].
  run_call. rewrite Ho. cbn [world trace fst snd].
  rewrite Hr. cbn [lift]. unfold ret.
  run_call.
  destruct (Image_save env (temp_filename_reduced uid) c w2) as [w3 [e|[]]];
    cbn [fst snd trace]; [in_trace|].
  run_call.
  destruct (subprocess_run env (command lossy colors uid) (Some 90) w3)
    as [w4 [e|[]]]; cbn [fst snd trace]; [in_trace|].
  run_call.
  case_bool_decide; cbn [negb fst snd trace]; [run_call|]; in_trace.
Qed.

End PipelineFacts.

(** ** Claims about the frames and the pipeline *)

(** C1, as amended.  For an input that is written and decoded to an image
    of N >= 1 frames, the pipeline hands the encoder, for scratch file B,
    exactly ceil(N/2) frames, namely the frames of the input at the
    indices 0, 2, 4, ..., with [save_all] on, loop count 0 (infinite), the
    encoder's own optimization off and a per-frame duration of twice the
    original one; the original duration is the 'duration' of the first
    frame's metadata, or 100 when that is absent.  A one-frame input hands
    over exactly one frame, and the reduction does not fail.  How many
    frames the encoder then writes to B is the encoder's own. *)
Theorem intermediate_image_frames (env : Env) (input : bytes)
  (lossy colors : Z) (st : State) (img : Image) (w1 w2 : World) :
  write_file env (input_filename_full (id_in env st)) input
    (world (after_clock env st)) = (w1, inr tt) ->
  Image_open env (input_filename_full (id_in env st)) w1 = (w2, inr img) ->
  (1 <= n_frames img)%nat ->
  exists c : SaveCall,
    reduce_frames img = inr c
    /\ EvImageSave (temp_filename_reduced (id_in env st)) c
         ∈ trace (fst (optimize_gif_with_pillow_and_gifsicle
                         env true input lossy colors st))
    /\ length (saved_frames c) = ((n_frames img + 1) / 2)%nat
    /\ (forall k : nat, saved_frames c !! k = img !! (2 * k)%nat)
    /\ loop c = 0
    /\ duration c = 2 * default 100 (head img ≫= frame_duration)
    /\ (n_frames img = 1%nat -> length (saved_frames c) = 1%nat)
    /\ save_all c = true
    /\ optimize c = false.
Proof.
  intros Hw Ho Hn.
  destruct (reduce_frames img) as [e|c] eqn:Hr.
  { exfalso. unfold reduce_frames in Hr.
    destruct (select_frames img) eqn:Hsel; [|discriminate].
    by apply (select_frames_nonempty img). }
  destruct (reduce_frames_saved img c Hr)
    as (Hsaved & Hdur & Hloop & Hall & Hopt).
  exists c. split; [reflexivity|]. split.
  - destruct (pipeline_runs env input lossy colors st)
      as (r & w' & evs & -> & _). cbn [fst trace].
    rewrite elem_of_app. left.
    by apply (try_body_saves env input lossy colors _ _ img c w1 w2).
  - rewrite Hsaved. split; [apply select_frames_length|].
    split; [apply select_frames_lookup|].
    split; [done|]. split.
    + rewrite Hdur. unfold info_get_duration.
      destruct img as [|f ?]; cbn; [lia|]. destruct (frame_duration f); cbn; lia.
    + split; [|done]. intros H1. rewrite select_frames_length, H1. reflexivity.
Qed.

Lemma intermediate_image_frames_witness :
  exists c : SaveCall,
    reduce_frames (map (fun b => {| pixels := [b]; frame_duration := Some 40 |})
                       Sim.gif4) = inr c
    /\ EvImageSave (temp_filename_reduced (id_in Sim.env Sim.start)) c
         ∈ trace (fst (optimize_gif_with_pillow_and_gifsicle
                         Sim.env true Sim.gif4 200 64 Sim.start))
    /\ length (saved_frames c) = 2%nat
    /\ duration c = 80.
Proof.
  destruct (intermediate_image_frames Sim.env Sim.gif4 200 64 Sim.start
              (map (fun b => {| pixels := [b]; frame_duration := Some 40 |})
                   Sim.gif4)
              (fst (Sim.write (input_filename_full (id_in Sim.env Sim.start))
                      Sim.gif4 (world (after_clock Sim.env Sim.start))))
              (fst (Sim.write (input_filename_full (id_in Sim.env Sim.start))
                      Sim.gif4 (world (after_clock Sim.env Sim.start)))))
    as (c & Hr & Hin & Hlen & _ & _ & Hdur & _).
  - reflexivity.
  - vm_compute. reflexivity.
  - vm_compute. lia.
  - exists c. repeat split; assumption.
Defined.

(** C1, as stated, fails: with an encoder that merges identical
    consecutive frames, as Pillow's does, an input of three identical
    frames is reduced to the two frames at indices 0 and 2, and the image
    written to B, decoded right after the save, has one frame, not
    ceil(3/2) = 2. *)
Lemma merged_frames_make_fewer :
  ~ (forall (env : Env) (input : bytes) (st : State) (img : Image)
            (c : SaveCall) (w1 w2 w3 : World),
        write_file env (input_filename_full (id_in env st)) input
          (world (after_clock env st)) = (w1, inr tt) ->
        Image_open env (input_filename_full (id_in env st)) w1
          = (w2, inr img) ->
        (1 <= n_frames img)%nat ->
        reduce_frames img = inr c ->
        Image_save env (temp_filename_reduced (id_in env st)) c w2
          = (w3, inr tt) ->
        exists img' : Image,
          snd (Image_open env (temp_filename_reduced (id_in env st)) w3)
            = inr img'
          /\ n_frames img' = ((n_frames img + 1) / 2)%nat).
Proof.
  intros H.
  pose (a := {| pixels := [Byte.x61]; frame_duration := Some 40 |}).
  pose (c := {| first_frame := a; save_all := true; append_images := [a];
                duration := 80; loop := 0; optimize := false |}).
  pose (w1 := fst (Sim.write
                     (input_filename_full (id_in Merging.env Sim.start))
                     Merging.gif_aaa
                     (world (after_clock Merging.env Sim.start)))).
  pose (w3 := fst (Merging.save
                     (temp_filename_reduced (id_in Merging.env Sim.start))
                     c w1)).
  destruct (H Merging.env Merging.gif_aaa Sim.start [a; a; a] c w1 w1 w3)
    as (img' & Himg & Hn).
  - reflexivity.
  - vm_compute. reflexivity.
  - cbn. lia.
  - reflexivity.
  - reflexivity.
  - vm_compute in Himg. injection Himg as <-. vm_compute in Hn.
    discriminate Hn.
Qed.

(** C10.  When the decoded image has at least one frame, the list of
    retained frames is not empty, since index 0 is even and its frame is
    retained; so the reduction does not take the branch that raises
    'Could not extract valid frames from GIF.' *)
Theorem empty_frames_branch_unreachable (img : Image) :
  (1 <= n_frames img)%nat ->
  select_frames img <> []
  /\ select_frames img !! 0%nat = img !! 0%nat
  /\ (exists c : SaveCall, reduce_frames img = inr c)
  /\ reduce_frames img
       <> inl (ValueError "Could not extract valid frames from GIF.").
Proof.
  intros Hn. pose proof (select_frames_nonempty img Hn) as Hne.
  split; [done|]. split; [apply (select_frames_lookup img 0)|].
  unfold reduce_frames. destruct (select_frames img); [done|].
  split; [eauto | discriminate].
Qed.

Lemma empty_frames_branch_unreachable_witness :
  select_frames [{| pixels := []; frame_duration := None |}] <> []
  /\ exists c : SaveCall,
       reduce_frames [{| pixels := []; frame_duration := None |}] = inr c.
Proof.
  destruct (empty_frames_branch_unreachable
              [{| pixels := []; frame_duration := None |}])
    as (H1 & _ & H2 & _).
  - simpl. lia.
  - split; assumption.
Defined.

(** C4.  For every input, every setting and every behaviour of the
    collaborators, the pipeline returns (it raises nothing), and its
    result has exactly one slot filled: bytes and no message, or a message
    and no bytes. *)
Theorem pipeline_fills_exactly_one_slot (env : Env) (avail : bool)
  (input : bytes) (lossy colors : Z) (st : State) :
  exists st' : State,
    (exists b : bytes,
        optimize_gif_with_pillow_and_gifsicle env avail input lossy colors st
          = (st', inr (Some b, None)))
    \/ (exists msg : string,
        optimize_gif_with_pillow_and_gifsicle env avail input lossy colors st
          = (st', inr (None, Some msg))).
Proof.
  destruct (pipeline_total env avail input lossy colors st)
    as (st' & r & -> & [[b ->]|[msg ->]]); eauto.
Qed.

(** C8.  If the start-up probe found the optimizer unavailable, every call
    of the pipeline returns no bytes and the fixed message, and leaves the
    state as it was: the world is untouched and no call to the outside is
    made (no file is created, written, read or deleted). *)
Theorem unavailable_pipeline_does_nothing (env : Env) (st0 st1 : State)
  (avail : bool) :
  detect_gifsicle env st0 = (st1, inr avail) ->
  avail = false ->
  forall (input : bytes) (lossy colors : Z) (st : State),
    optimize_gif_with_pillow_and_gifsicle env avail input lossy colors st
      = (st, inr (None, Some unavailable_message)).
Proof. intros _ -> input lossy colors st. reflexivity. Qed.

Lemma unavailable_pipeline_does_nothing_witness :
  detect_gifsicle (Sim.make Sim.ticking Sim.no_gifsicle) Sim.start
    = ({| world := Sim.empty_world;
          trace := [EvRun ["gifsicle"; "--version"]] |}, inr false)
  /\ optimize_gif_with_pillow_and_gifsicle
       (Sim.make Sim.ticking Sim.no_gifsicle) false Sim.gif4 200 64 Sim.start
     = (Sim.start, inr (None, Some unavailable_message)).
Proof.
  split; [reflexivity|].
  apply (unavailable_pipeline_does_nothing
           (Sim.make Sim.ticking Sim.no_gifsicle) Sim.start
           {| world := Sim.empty_world;
              trace := [EvRun ["gifsicle"; "--version"]] |} false);
    reflexivity.
Defined.

(** C9, as amended.  For every invocation that gets past the availability
    check, whatever the collaborators do (success, a failure branch, an
    exception anywhere in the body): the call returns without raising;
    the clean-up tries to delete each of the scratch files A, B, C that
    exists when the [finally] block starts; and each of A, B, C that still
    exists after the call is one whose deletion the system refused (such
    failures are ignored).  When no deletion is refused, none of the
    three exists after the call. *)
Theorem cleanup_on_every_exit (env : Env) (input : bytes) (lossy colors : Z)
  (st : State) :
  let uid := id_in env st in
  let at_finally :=
    fst (guarded_body env input lossy colors uid (after_clock env st)) in
  let final :=
    fst (optimize_gif_with_pillow_and_gifsicle env true input lossy colors st) in
  (exists r, optimize_gif_with_pillow_and_gifsicle env true input lossy colors st
             = (final, inr r))
  /\ (exists evs : list event,
        trace final = (trace at_finally ++ evs)%list
        /\ forall p, p ∈ scratch_files uid ->
             is_Some (fs (world at_finally) !! p) -> EvRemove p ∈ evs)
  /\ (forall p, p ∈ scratch_files uid ->
        is_Some (fs (world final) !! p) -> p ∈ locked (world final))
  /\ (locked (world at_finally) ∩ list_to_set (scratch_files uid) = ∅ ->
      forall p, p ∈ scratch_files uid -> fs (world final) !! p = None).
Proof.
  cbn zeta.
  destruct (pipeline_runs env input lossy colors st)
    as (r & w' & evs & Hrun & Hg & Hc & _).
  rewrite Hrun, Hg. cbn [fst world trace].
  destruct (for_each_remove_spec (scratch_files (id_in env st))
              (fst (try_body env input lossy colors (id_in env st)
                      (after_clock env st))))
    as (w'' & evs' & Hc' & Hlock & _ & Hleft & Hatt & _).
  rewrite Hc in Hc'. injection Hc' as Hw He.
  apply app_inv_head in He. subst w'' evs'.
  split; [eauto|]. split; [eauto|]. split; [done|].
  intros Hfree p Hp. apply eq_None_not_Some. intros Hsome.
  pose proof (Hleft p Hp Hsome) as Hl. rewrite Hlock in Hl.
  apply (not_elem_of_empty (C := gset string) p).
  rewrite <- Hfree, elem_of_intersection, elem_of_list_to_set. auto.
Qed.

(** C9, as stated, fails: a scratch file whose deletion is refused stays
    after the call returns, although the scratch directory was empty when
    the call started. *)
Lemma scratch_file_outlives_call :
  ~ (forall (env : Env) (input : bytes) (lossy colors : Z) (st : State),
        fs (world st) = ∅ ->
        forall p, p ∈ scratch_files (id_in env st) ->
          fs (world (fst (optimize_gif_with_pillow_and_gifsicle
                            env true input lossy colors st))) !! p = None).
Proof.
  intros H.
  specialize (H Sim.env Sim.gif4 200 64
                {| world := {| fs := ∅;
                               locked := {[ "temp_gifsicle_data/temp_in_full_17000000000.gif" ]};
                               ext := 0 |};
                   trace := [] |}
                eq_refl
                "temp_gifsicle_data/temp_in_full_17000000000.gif").
  assert (Hin : "temp_gifsicle_data/temp_in_full_17000000000.gif"
                  ∈ scratch_files
                      (id_in Sim.env
                         {| world := {| fs := ∅;
                                        locked := {[ "temp_gifsicle_data/temp_in_full_17000000000.gif" ]};
                                        ext := 0 |};
                            trace := [] |})).
  { vm_compute. apply elem_of_cons. by left. }
  specialize (H Hin). vm_compute in H. discriminate H.
Qed.

(** ** The handler over any pipeline *)
Section HandlerFacts.

Variable env : Env.
Context {St : Type}.
Variable pipeline : bytes -> Z -> Z -> M St (option bytes * option string).

Implicit Types (file : FileStorage) (files : list FileStorage)
  (results : list pydict) (st : St).

Lemma process_file_rejected (l c : Z) file st :
  is_gif file = false ->
  process_file env pipeline l c file st = (st, inr (rejected_entry env file)).
Proof. unfold process_file, is_gif. by intros ->. Qed.

Lemma process_file_gif (l c : Z) file st :
  is_gif file = true ->
  process_file env pipeline l c file st =
    match pipeline (content file) l c st with
    | (st', inr r) => (st', inr (pipeline_entry env file r))
    | (st', inl e) => (st', inl e)
    end.
Proof.
  unfold process_file, is_gif. intros ->. cbn [negb]. unfold bind, ret.
  by destruct (pipeline (content file) l c st) as [st' [e|r]].
Qed.

(** The loop only appends to [results]. *)
Lemma process_files_acc (l c : Z) files results st :
  process_files env pipeline l c files results st =
    match process_files env pipeline l c files [] st with
    | (st', inr rs) => (st', inr (results ++ rs)%list)
    | (st', inl e) => (st', inl e)
    end.
Proof.
  revert results st. induction files as [|file rest IH]; intros results st.
  - cbn. unfold ret. by rewrite app_nil_r.
  - cbn [process_files]. unfold bind.
    destruct (process_file env pipeline l c file st) as [st1 [e|entry]];
      [reflexivity|].
    rewrite (IH (results ++ [entry])%list), (IH ([] ++ [entry])%list).
    destruct (process_files env pipeline l c rest [] st1) as [st2 [e|rs]];
      [reflexivity|].
    by rewrite <- app_assoc.
Qed.

(** A part that is not a GIF adds its entry at its place and changes
    nothing else. *)
Lemma process_files_insert_rejected (l c : Z) file (before after : list FileStorage) st :
  is_gif file = false ->
  process_files env pipeline l c (before ++ file :: after) [] st =
    match process_files env pipeline l c (before ++ after) [] st with
    | (st', inr rs) =>
        (st', inr (take (length before) rs ++ rejected_entry env file
                     :: drop (length before) rs)%list)
    | (st', inl e) => (st', inl e)
    end.
Proof.
  intros Hrej. revert st. induction before as [|x before IH]; intros st.
  - cbn [app process_files length]. unfold bind at 1.
    rewrite (process_file_rejected l c file st Hrej).
    rewrite process_files_acc.
    by destruct (process_files env pipeline l c after [] st) as [st' [e|rs]].
  - cbn [app process_files length]. unfold bind.
    destruct (process_file env pipeline l c x st) as [st1 [e|entry]];
      [reflexivity|].
    rewrite (process_files_acc l c (before ++ file :: after)),
      (process_files_acc l c (before ++ after)), IH.
    by destruct (process_files env pipeline l c (before ++ after) [] st1)
      as [st2 [e|rs]].
Qed.

(** The handler, once the settings are parsed. *)
Lemma endpoint_with_parsed (req : Request) (l c : Z) st :
  files_file req <> [] ->
  parse_settings env req = inr (l, c) ->
  endpoint_with env pipeline req st =
    match process_files env pipeline l c (files_file req) [] st with
    | (st', inr results) => (st', inr (ResultsBody results, 200))
    | (st', inl e) => (st', inl e)
    end.
Proof.
  intros Hne Hp. unfold endpoint_with. rewrite Hp.
  destruct (files_file req) eqn:Hf; [done|]. unfold bind, ret.
  by destruct (process_files env pipeline l c (_ :: _) [] st) as [st' [e|rs]].
Qed.

Lemma endpoint_with_invalid (req : Request) (msg : string) st :
  files_file req <> [] ->
  parse_settings env req = inl (ValueError msg) ->
  endpoint_with env pipeline req st =
    (st, inr (ErrorBody invalid_settings_message, 400)).
Proof.
  intros Hne Hp. unfold endpoint_with. rewrite Hp.
  by destruct (files_file req).
Qed.

End HandlerFacts.

(** ** The settings *)

Lemma clamp_cases (lo hi v : Z) :
  lo <= hi ->
  Z.max lo (Z.min hi v) = if v <? lo then lo else if hi <? v then hi else v.
Proof.
  intros H. destruct (Z.ltb_spec v lo), (Z.ltb_spec hi v); lia.
Qed.

(** The settings the source parses are those the specification words. *)
Lemma parse_settings_effective (env : Env) (req : Request) :
  parse_settings env req =
    match effective_setting env (form req !! "lossy") 200 0 300,
          effective_setting env (form req !! "colors") 64 2 256 with
    | Some l, Some c => inr (l, c)
    | _, _ => inl (ValueError "invalid literal for int() with base 10")
    end.
Proof.
  unfold parse_settings, int_form_get, effective_setting, clamp_lossy,
    clamp_colors.
  destruct (form req !! "lossy") as [s|];
    [destruct (py_int env s) as [v|]; [|reflexivity]|];
    (destruct (form req !! "colors") as [s'|];
     [destruct (py_int env s') as [v'|]; [|reflexivity]|]);
    rewrite ?clamp_cases by lia; reflexivity.
Qed.

(** What the recording pipeline has seen after the loop. *)
Lemma recorded_calls (env : Env) (l c : Z) (files : list FileStorage)
  (results : list pydict) (calls : list (bytes * Z * Z)) :
  fst (process_files env recording_pipeline l c files results calls) =
    (calls ++ map (fun f => (content f, l, c)) (List.filter is_gif files))%list.
Proof.
  revert results calls. induction files as [|file rest IH]; intros results calls.
  - cbn. by rewrite app_nil_r.
  - cbn [process_files List.filter]. unfold bind.
    destruct (is_gif file) eqn:Hg.
    + rewrite process_file_gif by done. unfold recording_pipeline at 1.
      rewrite IH. cbn [map]. by rewrite <- app_assoc.
    + rewrite process_file_rejected by done. apply IH.
Qed.

(** ** Claims about the handler *)

(** C6.  For every request that carries at least one file: a missing
    [lossy] field counts as 200 and a missing [colors] field as 64; a field
    that is present but does not parse as an integer makes the whole
    request fail with status 400 and an error body, before any file is
    processed; values that parse are clamped, lossy to [0,300] (so -10
    gives 0 and 9999 gives 300) and colors to [2,256]; and the clamped
    pair is what every call of the pipeline in the request receives. *)
Theorem settings_default_clamp_and_pass (env : Env) (req : Request) :
  files_file req <> [] ->
  let lossy := effective_setting env (form req !! "lossy") 200 0 300 in
  let colors := effective_setting env (form req !! "colors") 64 2 256 in
  (forall (St : Type)
          (pipeline : bytes -> Z -> Z -> M St (option bytes * option string))
          (st : St),
      match lossy, colors with
      | Some l, Some c =>
          endpoint_with env pipeline req st =
            match process_files env pipeline l c (files_file req) [] st with
            | (st', inr results) => (st', inr (ResultsBody results, 200))
            | (st', inl e) => (st', inl e)
            end
      | _, _ =>
          endpoint_with env pipeline req st =
            (st, inr (ErrorBody invalid_settings_message, 400))
      end)
  /\ (forall l c : Z, lossy = Some l -> colors = Some c ->
        0 <= l <= 300 /\ 2 <= c <= 256
        /\ fst (endpoint_with env recording_pipeline req []) =
             map (fun f => (content f, l, c))
                 (List.filter is_gif (files_file req)))
  /\ (form req !! "lossy" = None -> lossy = Some 200)
  /\ (form req !! "colors" = None -> colors = Some 64)
  /\ (forall s v, form req !! "lossy" = Some s -> py_int env s = Some v ->
        lossy = Some (clamp_lossy v)
        /\ (v = -10 -> lossy = Some 0) /\ (v = 9999 -> lossy = Some 300)
        /\ (0 <= v <= 300 -> lossy = Some v))
  /\ (forall s v, form req !! "colors" = Some s -> py_int env s = Some v ->
        colors = Some (clamp_colors v)
        /\ (2 <= v <= 256 -> colors = Some v))
  /\ (forall s, form req !! "lossy" = Some s -> py_int env s = None ->
        lossy = None)
  /\ (forall s, form req !! "colors" = Some s -> py_int env s = None ->
        colors = None).
Proof.
  intros Hne. cbn zeta. pose proof (parse_settings_effective env req) as Hp.
  split.
  { intros St pipeline st.
    destruct (effective_setting env (form req !! "lossy") 200 0 300) as [l|];
      [destruct (effective_setting env (form req !! "colors") 64 2 256) as [c|]|].
    - by apply endpoint_with_parsed.
    - by eapply endpoint_with_invalid.
    - by eapply endpoint_with_invalid. }
  split.
  { intros l c Hl Hc. rewrite Hl, Hc in Hp.
    assert (0 <= l <= 300 /\ 2 <= c <= 256) as [Hlr Hcr].
    { unfold effective_setting in Hl, Hc.
      destruct (form req !! "lossy") as [s|];
        [destruct (py_int env s) as [v|]; [|discriminate]|];
        (destruct (form req !! "colors") as [s'|];
         [destruct (py_int env s') as [v'|]; [|discriminate]|]);
        injection Hl as <-; injection Hc as <-;
        repeat match goal with
          | |- context [(?a <? ?b)] => destruct (Z.ltb_spec a b)
          end; lia. }
    split; [done|]. split; [done|].
    rewrite (endpoint_with_parsed env recording_pipeline req l c []) by done.
    pose proof (recorded_calls env l c (files_file req) [] []) as Hrec.
    destruct (process_files env recording_pipeline l c (files_file req) [] [])
      as [calls [e|rs]]; exact Hrec. }
  unfold effective_setting, clamp_lossy, clamp_colors.
  split; [by intros ->|]. split; [by intros ->|].
  split.
  { intros s v -> ->. rewrite clamp_cases by lia.
    split; [done|]. split; [by intros ->|].
    split; [by intros ->|]. intros Hv.
    destruct (Z.ltb_spec v 0), (Z.ltb_spec 300 v); f_equal; lia. }
  split.
  { intros s v -> ->. rewrite clamp_cases by lia. split; [done|]. intros Hv.
    destruct (Z.ltb_spec v 2), (Z.ltb_spec 256 v); f_equal; lia. }
  split; by intros s -> ->.
Qed.

Lemma settings_default_clamp_and_pass_witness :
  fst (endpoint_with Sim.env recording_pipeline
         {| files_file := [Sim.upload "a.gif" "image/gif" Sim.gif4;
                           Sim.upload "b.png" "image/png" Sim.gif1;
                           Sim.upload "c.gif" "image/gif" Sim.gif1];
            form := {[ "lossy" := "-10" ]} |} [])
  = [(Sim.gif4, 0, 64); (Sim.gif1, 0, 64)].
Proof.
  destruct (settings_default_clamp_and_pass Sim.env
              {| files_file := [Sim.upload "a.gif" "image/gif" Sim.gif4;
                                Sim.upload "b.png" "image/png" Sim.gif1;
                                Sim.upload "c.gif" "image/gif" Sim.gif1];
                 form := {[ "lossy" := "-10" ]} |})
    as (_ & H & _).
  - discriminate.
  - destruct (H 0 64) as (_ & _ & Hcalls); [reflexivity | reflexivity |].
    exact Hcalls.
Defined.

(** C7.  A part whose declared MIME type is not image/gif is answered
    without calling the pipeline: whatever the pipeline is, the state is
    left as it was, and the entry has a descriptive error and a null
    optimized_data.  The other files of the request are processed as they
    are without that part: their entries and the final state are the same,
    the rejected entry standing at the part's place. *)
Theorem non_gif_part_skips_pipeline (env : Env) (St : Type)
  (pipeline : bytes -> Z -> Z -> M St (option bytes * option string))
  (file : FileStorage) (before after : list FileStorage)
  (fields : gmap string string) (st : St) :
  mimetype file <> "image/gif" ->
  let entry := rejected_entry env file in
  (forall l c : Z, process_file env pipeline l c file st = (st, inr entry))
  /\ dict_get entry "error"
       = Some (PyStr ("File is not a GIF file (" ++ mimetype file ++ ")."))
  /\ dict_get entry "optimized_data" = Some PyNone
  /\ (forall l c : Z,
        process_files env pipeline l c (before ++ file :: after) [] st =
          match process_files env pipeline l c (before ++ after) [] st with
          | (st', inr rs) =>
              (st', inr (take (length before) rs ++ entry
                           :: drop (length before) rs)%list)
          | (st', inl e) => (st', inl e)
          end)
  /\ ((before ++ after)%list <> [] ->
      endpoint_with env pipeline
        {| files_file := before ++ file :: after; form := fields |} st =
        match endpoint_with env pipeline
                {| files_file := before ++ after; form := fields |} st with
        | (st', inr (ResultsBody rs, code)) =>
            (st', inr (ResultsBody (take (length before) rs ++ entry
                                      :: drop (length before) rs), code))
        | other => other
        end).
Proof.
  intros Hmime. cbn zeta.
  assert (Hrej : is_gif file = false).
  { unfold is_gif. by apply String.eqb_neq. }
  split; [intros l c; by apply process_file_rejected|].
  split; [reflexivity|]. split; [reflexivity|].
  split; [intros l c; by apply process_files_insert_rejected|].
  intros Hne.
  assert (Hne' : (before ++ file :: after)%list <> []) by (by destruct before).
  destruct (parse_settings env {| files_file := before ++ after; form := fields |})
    as [e|[l c]] eqn:Hp.
  - assert (Hp' : parse_settings env
                    {| files_file := before ++ file :: after; form := fields |}
                  = inl e) by exact Hp.
    unfold endpoint_with. rewrite Hp, Hp'. cbn [files_file].
    destruct (before ++ after)%list eqn:E1; [done|].
    destruct (before ++ file :: after)%list eqn:E2; [done|].
    by destruct e.
  - assert (Hp' : parse_settings env
                    {| files_file := before ++ file :: after; form := fields |}
                  = inr (l, c)) by exact Hp.
    rewrite (endpoint_with_parsed env pipeline
               {| files_file := before ++ file :: after; form := fields |}
               l c st Hne' Hp'),
      (endpoint_with_parsed env pipeline
         {| files_file := before ++ after; form := fields |} l c st Hne Hp).
    cbn [files_file]. rewrite process_files_insert_rejected by done.
    by destruct (process_files env pipeline l c (before ++ after) [] st)
      as [st' [e|rs]].
Qed.

Lemma non_gif_part_skips_pipeline_witness :
  snd (optimize_gif_endpoint Sim.env true
         {| files_file := [Sim.upload "a.gif" "image/gif" Sim.gif4;
                           Sim.upload "b.png" "image/png" Sim.gif1];
            form := ∅ |} Sim.start)
  = inr (ResultsBody
           [[("filename", PyStr "a.gif"); ("original_size", PyInt 4);
             ("optimized_data", PyStr "YWM="); ("optimized_size", PyInt 2);
             ("error", PyNone)];
            rejected_entry Sim.env (Sim.upload "b.png" "image/png" Sim.gif1)],
         200).
Proof.
  destruct (non_gif_part_skips_pipeline Sim.env State
              (optimize_gif_with_pillow_and_gifsicle Sim.env true)
              (Sim.upload "b.png" "image/png" Sim.gif1)
              [Sim.upload "a.gif" "image/gif" Sim.gif4] [] ∅ Sim.start)
    as (_ & _ & _ & _ & H).
  - discriminate.
  - unfold optimize_gif_endpoint. cbn [app] in H. rewrite H; [|discriminate].
    vm_compute. reflexivity.
Defined.

(** ** The entries of a response *)

Lemma pipeline_entry_success (env : Env) (file : FileStorage) (b : bytes) :
  b <> [] ->
  pipeline_entry env file (Some b, None) =
    [("filename", PyStr (secure_filename env (filename file)));
     ("original_size", PyInt (Z.of_nat (length (content file))));
     ("optimized_data", PyStr (b64encode b));
     ("optimized_size", PyInt (Z.of_nat (length b)));
     ("error", PyNone)].
Proof. by destruct b. Qed.

Lemma pipeline_entry_failure (env : Env) (file : FileStorage) (msg : string) :
  pipeline_entry env file (None, Some msg) =
    [("filename", PyStr (secure_filename env (filename file)));
     ("original_size", PyInt (Z.of_nat (length (content file))));
     ("optimized_data", PyNone);
     ("optimized_size", PyNone);
     ("error", PyStr msg)].
Proof. reflexivity. Qed.

(** Empty bytes are falsy: the entry then carries neither data nor error. *)
Lemma pipeline_entry_empty_output (env : Env) (file : FileStorage) :
  pipeline_entry env file (Some [], None) =
    [("filename", PyStr (secure_filename env (filename file)));
     ("original_size", PyInt (Z.of_nat (length (content file))));
     ("optimized_data", PyNone);
     ("optimized_size", PyNone);
     ("error", PyNone)].
Proof. reflexivity. Qed.

(** With the real pipeline the loop never raises, and it yields one entry
    per file, in the order of the files. *)
Lemma process_files_real (env : Env) (avail : bool) (l c : Z)
  (files : list FileStorage) (st : State) :
  exists st' rs,
    process_files env (optimize_gif_with_pillow_and_gifsicle env avail)
      l c files [] st = (st', inr rs)
    /\ Forall2
         (fun file entry =>
            (is_gif file = false /\ entry = rejected_entry env file)
            \/ (is_gif file = true
                /\ exists r, entry = pipeline_entry env file r
                     /\ ((exists b, r = (Some b, None))
                         \/ (exists msg, r = (None, Some msg)))))
         files rs.
Proof.
  revert st. induction files as [|file rest IH]; intros st.
  - exists st, []. split; [reflexivity | constructor].
  - cbn [process_files]. unfold bind.
    destruct (is_gif file) eqn:Hg.
    + rewrite process_file_gif by done.
      destruct (pipeline_total env avail (content file) l c st)
        as (st1 & r & -> & Hone).
      rewrite process_files_acc.
      destruct (IH st1) as (st2 & rs & -> & Hall).
      exists st2, (pipeline_entry env file r :: rs).
      split; [reflexivity|]. constructor; [|done]. right. eauto.
    + rewrite process_file_rejected by done.
      rewrite process_files_acc.
      destruct (IH st) as (st2 & rs & -> & Hall).
      exists st2, (rejected_entry env file :: rs).
      split; [reflexivity|]. constructor; [|done]. left. eauto.
Qed.

(** The part of C2 that holds: with at least one file and settings that
    parse, the endpoint answers 200 with one entry per file, in the order
    of the upload, each with its file name, its size, and the keys
    [optimized_data] and [error]. *)
Lemma endpoint_one_entry_per_file (env : Env) (avail : bool) (req : Request)
  (l c : Z) (st : State) :
  files_file req <> [] ->
  parse_settings env req = inr (l, c) ->
  exists st' results,
    optimize_gif_endpoint env avail req st = (st', inr (ResultsBody results, 200))
    /\ length results = length (files_file req)
    /\ forall (i : nat) file, files_file req !! i = Some file ->
         exists entry,
           results !! i = Some entry
           /\ dict_get entry "filename"
                = Some (PyStr (secure_filename env (filename file)))
           /\ dict_get entry "original_size"
                = Some (PyInt (Z.of_nat (length (content file))))
           /\ has_key entry "optimized_data" = true
           /\ has_key entry "error" = true
           /\ has_key entry "optimized_size" = is_gif file.
Proof.
  intros Hne Hp. unfold optimize_gif_endpoint.
  rewrite (endpoint_with_parsed env _ req l c st Hne Hp).
  destruct (process_files_real env avail l c (files_file req) st)
    as (st' & rs & -> & Hall).
  exists st', rs. split; [reflexivity|].
  split; [symmetry; by eapply Forall2_length|].
  intros i file Hi.
  destruct (Forall2_lookup_l _ _ _ _ _ Hall Hi) as (entry & He & Hcase).
  exists entry. split; [done|].
  destruct Hcase as [[Hg ->]|(Hg & r & -> & _)]; rewrite Hg.
  - repeat split; reflexivity.
  - destruct r as [o e]. unfold pipeline_entry.
    repeat split; reflexivity.
Qed.

(** C2, at an input where the code departs from it: for a request whose
    only part is declared image/png the endpoint answers 200 with one
    entry, and that entry has four keys; the key [optimized_size], which
    the entries built from a pipeline call carry, is missing. *)
Theorem rejected_entry_lacks_optimized_size (env : Env) (avail : bool)
  (st : State) :
  exists entry : pydict,
    optimize_gif_endpoint env avail
      {| files_file := [Sim.upload "picture.png" "image/png"
                          (bytes_of_string "PNG")];
         form := ∅ |} st
      = (st, inr (ResultsBody [entry], 200))
    /\ map fst entry = ["filename"; "original_size"; "error"; "optimized_data"]
    /\ has_key entry "optimized_size" = false.
Proof.
  eexists. split; [reflexivity|]. split; reflexivity.
Qed.

(** C3, at an input where the code departs from it: when the optimizer
    exits 0 and leaves an empty output file, the pipeline returns the
    empty bytes and no error, and the entry the handler builds has
    [optimized_data], [optimized_size] and [error] all null. *)
Theorem empty_output_entry_is_all_null :
  snd (optimize_gif_with_pillow_and_gifsicle
         (Sim.make Sim.ticking (Sim.gifsicle (fun _ => [])))
         true Sim.gif4 200 64 Sim.start)
    = inr (Some [], None)
  /\ snd (optimize_gif_endpoint
            (Sim.make Sim.ticking (Sim.gifsicle (fun _ => []))) true
            {| files_file := [Sim.upload "a.gif" "image/gif" Sim.gif4];
               form := ∅ |} Sim.start)
     = inr (ResultsBody
              [[("filename", PyStr "a.gif"); ("original_size", PyInt 4);
                ("optimized_data", PyNone); ("optimized_size", PyNone);
                ("error", PyNone)]],
            200).
Proof. split; vm_compute; reflexivity. Qed.

(** ** The scratch-file identifier *)

(** The identifier, and with it the three scratch paths, is a function of
    the clock reading alone. *)
Lemma same_reading_same_scratch_files (env : Env) (st1 st2 : State) :
  snd (time_str env (world st1)) = snd (time_str env (world st2)) ->
  scratch_files (id_in env st1) = scratch_files (id_in env st2).
Proof. unfold id_in. by intros ->. Qed.

(** Dropping the dot also merges readings that differ. *)
Example unique_id_merges_readings : unique_id_of "1.23" = unique_id_of "12.3".
Proof. reflexivity. Qed.

(** C5, at an input where the code departs from it: two invocations that
    read the same value from the clock use the same identifier; both write
    their input to the same scratch file A. *)
Theorem same_clock_reading_collides :
  let env := Sim.make Sim.frozen (Sim.gifsicle (fun d => d)) in
  let first :=
    optimize_gif_with_pillow_and_gifsicle env true Sim.gif4 200 64 Sim.start in
  let second :=
    optimize_gif_with_pillow_and_gifsicle env true Sim.gif1 200 64 (fst first) in
  id_in env Sim.start = "17000000005"
  /\ id_in env (fst first) = "17000000005"
  /\ EvWrite "temp_gifsicle_data/temp_in_full_17000000005.gif" Sim.gif4
       ∈ trace (fst first)
  /\ EvWrite "temp_gifsicle_data/temp_in_full_17000000005.gif" Sim.gif1
       ∈ trace (fst second).
Proof.
  cbn zeta. split; [reflexivity|]. split; [reflexivity|].
  split;
    match goal with
    | |- ?e ∈ ?t => let t' := eval vm_compute in t in change (e ∈ t')
    end;
    rewrite !elem_of_cons; repeat (first [left; reflexivity | right]).
Qed.

(** * Further properties of the program *)

(** ** Strings and scratch paths *)

Lemma append_cons (a : ascii) (s t : string) :
  String a s ++ t = String a (s ++ t).
Proof. reflexivity. Qed.

Lemma length_append (s t : string) :
  String.length (s ++ t) = (String.length s + String.length t)%nat.
Proof.
  induction s as [|a s IH]; [reflexivity|].
  rewrite append_cons. cbn [String.length]. by rewrite IH.
Qed.

(** Two strings with equally long first parts agree part by part. *)
Lemma append_eq_parts (a1 a2 b1 b2 : string) :
  String.length a1 = String.length a2 ->
  a1 ++ b1 = a2 ++ b2 -> a1 = a2 /\ b1 = b2.
Proof.
  revert a2. induction a1 as [|c a1 IH]; intros [|c' a2] Hlen Heq;
    try discriminate Hlen.
  - by split.
  - rewrite !append_cons in Heq. injection Heq as -> Heq.
    injection Hlen as Hlen. destruct (IH a2 Hlen Heq) as [-> ->]. by split.
Qed.

Lemma append_suffix_inj (s1 s2 t : string) : s1 ++ t = s2 ++ t -> s1 = s2.
Proof.
  intros Heq. apply (append_eq_parts s1 s2 t t); [|done].
  apply (f_equal String.length) in Heq. rewrite !length_append in Heq. lia.
Qed.

Lemma remove_dots_append (s t : string) :
  remove_dots (s ++ t) = remove_dots s ++ remove_dots t.
Proof.
  induction s as [|a s IH]; [reflexivity|].
  rewrite append_cons. cbn [remove_dots].
  destruct (Ascii.eqb a "."); [done|]. by rewrite append_cons, IH.
Qed.

(** Undo the common directory of two scratch paths. *)
Ltac strip_dir H :=
  unfold input_filename_full, temp_filename_reduced, output_filename,
    path_join, TEMP_DIR in H;
  apply (inj (String.app _)) in H; apply (inj (String.app _)) in H.

Lemma input_filename_full_inj (id1 id2 : string) :
  input_filename_full id1 = input_filename_full id2 -> id1 = id2.
Proof.
  intros H. strip_dir H. apply (inj (String.app _)) in H.
  by apply append_suffix_inj in H.
Qed.

Lemma temp_filename_reduced_inj (id1 id2 : string) :
  temp_filename_reduced id1 = temp_filename_reduced id2 -> id1 = id2.
Proof.
  intros H. strip_dir H. apply (inj (String.app _)) in H.
  by apply append_suffix_inj in H.
Qed.

Lemma output_filename_inj (id1 id2 : string) :
  output_filename id1 = output_filename id2 -> id1 = id2.
Proof.
  intros H. strip_dir H. apply (inj (String.app _)) in H.
  by apply append_suffix_inj in H.
Qed.

Lemma input_not_reduced (id1 id2 : string) :
  input_filename_full id1 <> temp_filename_reduced id2.
Proof. intros H. strip_dir H. cbv [String.append] in H. discriminate H. Qed.

Lemma input_not_output (id1 id2 : string) :
  input_filename_full id1 <> output_filename id2.
Proof. intros H. strip_dir H. cbv [String.append] in H. discriminate H. Qed.

Lemma reduced_not_output (id1 id2 : string) :
  temp_filename_reduced id1 <> output_filename id2.
Proof. intros H. strip_dir H. cbv [String.append] in H. discriminate H. Qed.

(** Membership in the three scratch files, spelled out. *)
Lemma elem_of_scratch_files (p uid : string) :
  p ∈ scratch_files uid <->
  p = input_filename_full uid \/ p = temp_filename_reduced uid
  \/ p = output_filename uid.
Proof.
  unfold scratch_files. rewrite !elem_of_cons, elem_of_nil. tauto.
Qed.

(** X1.  The three scratch paths of an invocation are pairwise distinct,
    whatever the identifier: the input copy, the reduced image and the
    optimizer's output never share a file. *)
Theorem scratch_files_distinct (uid : string) : NoDup (scratch_files uid).
Proof.
  unfold scratch_files. repeat constructor;
    rewrite ?elem_of_cons, ?elem_of_nil; intros H.
  - destruct H as [H|[H|H]];
      [by apply input_not_reduced in H | by apply input_not_output in H | done].
  - destruct H as [H|H]; [by apply reduced_not_output in H | done].
  - done.
Qed.

(** X2.  Invocations with different identifiers share no scratch file:
    no path of the one is a path of the other, of the same kind or of
    another. *)
Theorem distinct_ids_disjoint_scratch_files (id1 id2 p : string) :
  id1 <> id2 -> p ∈ scratch_files id1 -> p ∉ scratch_files id2.
Proof.
  intros Hne H1 H2. apply elem_of_scratch_files in H1, H2.
  destruct H1 as [ -> | [ -> | -> ] ], H2 as [H|[H|H]];
    first [ by apply input_filename_full_inj in H
          | by apply temp_filename_reduced_inj in H
          | by apply output_filename_inj in H
          | by apply input_not_reduced in H
          | by apply input_not_output in H
          | by apply reduced_not_output in H
          | by symmetry in H; apply input_not_reduced in H
          | by symmetry in H; apply input_not_output in H
          | by symmetry in H; apply reduced_not_output in H ].
Qed.

Lemma distinct_ids_disjoint_scratch_files_witness :
  "temp_gifsicle_data/temp_out_17000000005.gif"
    ∉ scratch_files "17000000006".
Proof.
  apply (distinct_ids_disjoint_scratch_files "17000000005" "17000000006").
  - discriminate.
  - apply elem_of_scratch_files. right. right. reflexivity.
Defined.

(** X3.  Two different clock readings whose integer parts have the same
    number of characters, and which have no dot but the decimal point,
    give different identifiers. *)
Theorem unique_id_injective_same_width (a1 b1 a2 b2 : string) :
  remove_dots a1 = a1 -> remove_dots b1 = b1 ->
  remove_dots a2 = a2 -> remove_dots b2 = b2 ->
  String.length a1 = String.length a2 ->
  a1 ++ "." ++ b1 <> a2 ++ "." ++ b2 ->
  unique_id_of (a1 ++ "." ++ b1) <> unique_id_of (a2 ++ "." ++ b2).
Proof.
  unfold unique_id_of. intros Ha1 Hb1 Ha2 Hb2 Hlen Hne.
  rewrite !remove_dots_append, Ha1, Hb1, Ha2, Hb2.
  change (remove_dots ".") with "". change ("" ++ b1) with b1.
  change ("" ++ b2) with b2. intros Heq. apply Hne.
  by destruct (append_eq_parts a1 a2 b1 b2 Hlen Heq) as [-> ->].
Qed.

Lemma unique_id_injective_same_width_witness :
  unique_id_of ("1700000000" ++ "." ++ "25")
    <> unique_id_of ("1700000000" ++ "." ++ "26").
Proof.
  apply (unique_id_injective_same_width "1700000000" "25" "1700000000" "26");
    try reflexivity.
  discriminate.
Defined.

(** ** The calls of one invocation *)
Section Calls.

Variable env : Env.
Implicit Types (st : State) (input : bytes) (lossy colors : Z) (uid : string).

Lemma except_clauses_message (e : exn) st :
  except_clauses env e st = (st, inr (None, Some (error_message_of env e))).
Proof. by destruct e. Qed.

(** The clean-up loop asks about, and removes, only the paths it is
    given. *)
Lemma for_each_remove_events (l : list string) st :
  exists evs,
    trace (fst (for_each l remove_if_exists st)) = (trace st ++ evs)%list
    /\ Forall (cleanup_event l) evs.
Proof.
  assert (Hgrow : forall (l0 : list string) (x : string) (evs : list event),
             Forall (cleanup_event l0) evs ->
             Forall (cleanup_event (x :: l0)) evs).
  { intros l0 x evs H. eapply Forall_impl; [exact H|].
    intros ev (p & Hp & Hev).
    exists p. split; [by apply elem_of_cons; right | done]. }
  revert st. induction l as [|x r IH]; intros st.
  - exists []. cbn. by rewrite app_nil_r.
  - destruct (remove_if_exists_spec x st) as (w1 & Hrun & _).
    cbn [for_each]. unfold bind at 1. rewrite Hrun.
    match goal with
    | |- context [for_each r remove_if_exists ?s] =>
        destruct (IH s) as (evs & Htr & Hall)
    end.
    rewrite Htr. cbn [trace]. rewrite <- app_assoc. eexists.
    split; [reflexivity|]. cbn [app].
    constructor; [exists x; split; [apply elem_of_cons; by left | by left]|].
    apply Forall_app. split; [|by apply Hgrow].
    case_bool_decide; [|constructor].
    constructor; [|constructor].
    exists x. split; [apply elem_of_cons; by left | by right].
Qed.

(** The calls of the body of the [try]: each is one of the invocation's
    own, and a body that returns has made all six. *)
Lemma try_body_events input lossy colors uid st :
  exists evs,
    trace (fst (try_body env input lossy colors uid st)) = (trace st ++ evs)%list
    /\ Forall (own_event input lossy colors uid) evs
    /\ (forall b, snd (try_body env input lossy colors uid st) = inr b ->
          exists sc, evs = body_events input lossy colors uid sc).
Proof.
  assert (Hc : output_filename uid ∈ scratch_files uid).
  { apply elem_of_scratch_files. auto. }
  unfold try_body, bind, open_wb_write, PIL_Image_open, PIL_save,
    run_checked, os_path_exists, open_rb_read, raise, ret.
  destruct st as [w tr]. run_call.
  destruct (write_file env (input_filename_full uid) input w) as [w1 [e|[]]];
    cbn [fst snd trace].
  { eexists. split; [reflexivity|]. split; [|discriminate].
    repeat constructor. }
  run_call.
  destruct (Image_open env (input_filename_full uid) w1) as [w2 [e|img]];
    cbn [fst snd trace]; rewrite <- ?app_assoc; cbn [app].
  { eexists. split; [reflexivity|]. split; [|discriminate].
    repeat constructor. }
  destruct (reduce_frames img) as [e|sc]; cbn [lift]; unfold raise, ret;
    cbn [fst snd trace].
  { eexists. split; [reflexivity|]. split; [|discriminate].
    repeat constructor. }
  run_call.
  destruct (Image_save env (temp_filename_reduced uid) sc w2) as [w3 [e|[]]];
    cbn [fst snd trace]; rewrite <- ?app_assoc; cbn [app].
  { eexists. split; [reflexivity|]. split; [|discriminate].
    repeat constructor. }
  run_call.
  destruct (subprocess_run env (command lossy colors uid) (Some 90) w3)
    as [w4 [e|[]]]; cbn [fst snd trace]; rewrite <- ?app_assoc; cbn [app].
  { eexists. split; [reflexivity|]. split; [|discriminate].
    repeat constructor. }
  run_call. case_bool_decide; cbn [negb fst snd trace];
    rewrite <- ?app_assoc; cbn [app].
  - run_call. rewrite <- ?app_assoc. cbn [app].
    eexists. split; [reflexivity|]. split.
    + repeat constructor; done.
    + intros b _. by exists sc.
  - eexists. split; [reflexivity|]. split; [|discriminate].
    repeat constructor; done.
Qed.

(** An invocation that gets past the availability check, in terms of the
    body of its [try]: the result is that of the body, an exception being
    turned into its message; the calls are the clock, those of the body
    and those of the clean-up. *)
Lemma pipeline_of_body input lossy colors st :
  exists w' evs,
    optimize_gif_with_pillow_and_gifsicle env true input lossy colors st =
      ({| world := w';
          trace := trace (fst (try_body env input lossy colors (id_in env st)
                                 (after_clock env st))) ++ evs |},
       inr match snd (try_body env input lossy colors (id_in env st)
                        (after_clock env st)) with
           | inr b => (Some b, None)
           | inl e => (None, Some (error_message_of env e))
           end)
    /\ Forall (cleanup_event (scratch_files (id_in env st))) evs.
Proof.
  rewrite pipeline_available. unfold try_finally, guarded_body, try_except, bind.
  destruct (try_body env input lossy colors (id_in env st) (after_clock env st))
    as [st1 [e|b]] eqn:Hb; cbn [fst snd].
  - rewrite except_clauses_message.
    destruct (for_each_remove_spec (scratch_files (id_in env st)) st1)
      as (w' & evs & Hc & _).
    destruct (for_each_remove_events (scratch_files (id_in env st)) st1)
      as (evs' & Htr & Hall).
    unfold cleanup. rewrite Hc in Htr |- *. cbn [fst trace] in Htr.
    apply app_inv_head in Htr. subst evs'. eauto.
  - unfold ret.
    destruct (for_each_remove_spec (scratch_files (id_in env st)) st1)
      as (w' & evs & Hc & _).
    destruct (for_each_remove_events (scratch_files (id_in env st)) st1)
      as (evs' & Htr & Hall).
    unfold cleanup. rewrite Hc in Htr |- *. cbn [fst trace] in Htr.
    apply app_inv_head in Htr. subst evs'. eauto.
Qed.

End Calls.

(** Run the next call of the body with its known outcome. *)
Ltac step_with H := run_call; rewrite H; cbn [fst snd world trace lift].

Ltac unfold_body :=
  unfold try_body, bind, open_wb_write, PIL_Image_open, PIL_save,
    run_checked, os_path_exists, open_rb_read, raise, ret.

(** The calls of an invocation are its own. *)
Lemma pipeline_own_events (env : Env) (avail : bool)
  (input : bytes) (lossy colors : Z) (st : State) :
  exists evs : list event,
    trace (fst (optimize_gif_with_pillow_and_gifsicle
                  env avail input lossy colors st)) = (trace st ++ evs)%list
    /\ Forall (own_event input lossy colors (id_in env st)) evs.
Proof.
  destruct avail.
  - destruct (pipeline_of_body env input lossy colors st)
      as (w' & cevs & -> & Hclean).
    destruct (try_body_events env input lossy colors (id_in env st)
                (after_clock env st)) as (bevs & -> & Hbody & _).
    cbn [fst trace after_clock]. rewrite <- !app_assoc. cbn [app].
    eexists. split; [reflexivity|].
    constructor; [exact I|]. apply Forall_app. split; [done|].
    eapply Forall_impl; [exact Hclean|].
    by intros ev (p & Hp & [->| ->]).
  - exists []. cbn. by rewrite app_nil_r.
Qed.

(** X4.  Whatever the collaborators do, every call an invocation makes to
    the outside is one of its own: it writes only its input to scratch
    file A, opens only A, saves only to B, runs only the gifsicle command
    line built from its settings and its paths B and C, reads only C, and
    asks about or removes only A, B and C. *)
Theorem pipeline_calls_only_its_own (env : Env) (avail : bool)
  (input : bytes) (lossy colors : Z) (st : State) :
  exists evs : list event,
    trace (fst (optimize_gif_with_pillow_and_gifsicle
                  env avail input lossy colors st)) = (trace st ++ evs)%list
    /\ Forall (own_event input lossy colors (id_in env st)) evs.
Proof. apply pipeline_own_events. Qed.

(** X5.  The pipeline returns bytes only after the whole sequence has run,
    once and in this order: the clock, the write of the input to A, the
    decoding of A, the save to B, the gifsicle command, the check that C
    exists, the read of C; after these come only the calls of the
    clean-up. *)
Theorem success_runs_every_step (env : Env) (avail : bool) (input : bytes)
  (lossy colors : Z) (st : State) (b : bytes) :
  snd (optimize_gif_with_pillow_and_gifsicle env avail input lossy colors st)
    = inr (Some b, None) ->
  avail = true
  /\ exists (sc : SaveCall) (evs : list event),
       trace (fst (optimize_gif_with_pillow_and_gifsicle
                     env avail input lossy colors st))
         = (trace st ++ EvTime
              :: body_events input lossy colors (id_in env st) sc ++ evs)%list
       /\ Forall (cleanup_event (scratch_files (id_in env st))) evs.
Proof.
  destruct avail; [|discriminate]. intros Hres. split; [reflexivity|].
  destruct (pipeline_of_body env input lossy colors st)
    as (w' & cevs & Hrun & Hclean).
  rewrite Hrun in Hres |- *. cbn [fst snd trace] in Hres |- *.
  destruct (try_body_events env input lossy colors (id_in env st)
              (after_clock env st)) as (bevs & -> & _ & Hall).
  destruct (snd (try_body env input lossy colors (id_in env st)
                   (after_clock env st))) as [e|b'] eqn:Hb; [discriminate|].
  destruct (Hall b' eq_refl) as [sc ->].
  exists sc, cevs. split; [|done].
  cbn [trace after_clock]. by rewrite <- !app_assoc.
Qed.

Lemma success_runs_every_step_witness :
  exists (sc : SaveCall) (evs : list event),
    trace (fst (optimize_gif_with_pillow_and_gifsicle
                  Sim.env true Sim.gif4 200 64 Sim.start))
      = (EvTime :: body_events Sim.gif4 200 64 "17000000000" sc ++ evs)%list.
Proof.
  destruct (success_runs_every_step Sim.env true Sim.gif4 200 64 Sim.start
              (bytes_of_string "ac")) as (_ & sc & evs & H & _).
  - vm_compute. reflexivity.
  - exists sc, evs. exact H.
Defined.

(** X6.  The clean-up removes nothing but the invocation's own scratch
    files: every other file is, after the call, as it was when the
    [finally] block started, and so is the set of paths that resist
    removal. *)
Theorem cleanup_spares_other_files (env : Env) (input : bytes)
  (lossy colors : Z) (st : State) (q : string) :
  q ∉ scratch_files (id_in env st) ->
  let at_finally :=
    fst (guarded_body env input lossy colors (id_in env st)
           (after_clock env st)) in
  let final :=
    fst (optimize_gif_with_pillow_and_gifsicle env true input lossy colors st) in
  fs (world final) !! q = fs (world at_finally) !! q
  /\ locked (world final) = locked (world at_finally).
Proof.
  intros Hq. cbn zeta.
  destruct (pipeline_runs env input lossy colors st)
    as (r & w' & evs & Hrun & Hg & Hc & _).
  rewrite Hrun, Hg. cbn [fst world].
  destruct (for_each_remove_spec (scratch_files (id_in env st))
              (fst (try_body env input lossy colors (id_in env st)
                      (after_clock env st))))
    as (w'' & evs' & Hc' & Hlock & Hother & _).
  rewrite Hc in Hc'. injection Hc' as Hw _. subst w''.
  split; [by apply Hother | done].
Qed.

Lemma cleanup_spares_other_files_witness :
  fs (world (fst (optimize_gif_with_pillow_and_gifsicle Sim.env true Sim.gif4
                    200 64
                    {| world := {| fs := {[ "temp_gifsicle_data/keep.gif" := Sim.gif1 ]};
                                   locked := ∅; ext := 0 |};
                       trace := [] |})))
    !! "temp_gifsicle_data/keep.gif" = Some Sim.gif1.
Proof.
  destruct (cleanup_spares_other_files Sim.env Sim.gif4 200 64
              {| world := {| fs := {[ "temp_gifsicle_data/keep.gif" := Sim.gif1 ]};
                             locked := ∅; ext := 0 |};
                 trace := [] |}
              "temp_gifsicle_data/keep.gif") as [H _].
  - rewrite elem_of_scratch_files. vm_compute.
    intros [H|[H|H]]; discriminate H.
  - rewrite H. vm_compute. reflexivity.
Defined.

(** ** Failures of single steps *)

(** The clean-up loop asks about every path it is given. *)
Lemma for_each_remove_asks (l : list string) (st : State) :
  exists evs,
    trace (fst (for_each l remove_if_exists st)) = (trace st ++ evs)%list
    /\ forall p, p ∈ l -> EvExists p ∈ evs.
Proof.
  revert st. induction l as [|x r IH]; intros st.
  - exists []. cbn. rewrite app_nil_r. split; [done|].
    intros p Hp. by apply elem_of_nil in Hp.
  - destruct (remove_if_exists_spec x st) as (w1 & Hrun & _).
    cbn [for_each]. unfold bind at 1. rewrite Hrun.
    match goal with
    | |- context [for_each r remove_if_exists ?s] =>
        destruct (IH s) as (evs & Htr & Hall)
    end.
    rewrite Htr. cbn [trace]. rewrite <- app_assoc. eexists.
    split; [reflexivity|]. intros p Hp. cbn [app].
    apply elem_of_cons in Hp as [->|Hp]; [apply elem_of_cons; by left|].
    apply elem_of_cons. right. apply elem_of_app. right. by apply Hall.
Qed.

(** The [finally] block of an invocation, seen from the state [body_st]
    the body of the [try] ends in: the result is that of the body, and the
    clean-up runs, asking about each of A, B, C, removing those that
    exist and leaving behind only what resists removal. *)
Lemma pipeline_finally (env : Env) (input : bytes) (lossy colors : Z)
  (st : State) :
  let body_st :=
    fst (try_body env input lossy colors (id_in env st) (after_clock env st)) in
  exists w' evs,
    optimize_gif_with_pillow_and_gifsicle env true input lossy colors st =
      ({| world := w'; trace := trace body_st ++ evs |},
       inr match snd (try_body env input lossy colors (id_in env st)
                        (after_clock env st)) with
           | inr b => (Some b, None)
           | inl e => (None, Some (error_message_of env e))
           end)
    /\ Forall (cleanup_event (scratch_files (id_in env st))) evs
    /\ (forall p, p ∈ scratch_files (id_in env st) -> EvExists p ∈ evs)
    /\ (forall p, p ∈ scratch_files (id_in env st) ->
          is_Some (fs (world body_st) !! p) -> EvRemove p ∈ evs)
    /\ (forall p, p ∈ scratch_files (id_in env st) ->
          is_Some (fs w' !! p) -> p ∈ locked w').
Proof.
  cbn zeta.
  destruct (pipeline_of_body env input lossy colors st)
    as (w' & evs & Hrun & Hclean).
  destruct (pipeline_runs env input lossy colors st)
    as (r & w1 & evs1 & Hrun1 & _ & Hc & _).
  rewrite Hrun in Hrun1. injection Hrun1 as Hw He _.
  apply app_inv_head in He. subst w1 evs1.
  destruct (for_each_remove_spec (scratch_files (id_in env st))
              (fst (try_body env input lossy colors (id_in env st)
                      (after_clock env st))))
    as (w2 & evs2 & Hc2 & _ & _ & Hleft & Hatt & _).
  rewrite Hc in Hc2. injection Hc2 as Hw He.
  apply app_inv_head in He. subst w2 evs2.
  destruct (for_each_remove_asks (scratch_files (id_in env st))
              (fst (try_body env input lossy colors (id_in env st)
                      (after_clock env st))))
    as (evs3 & Htr & Hask).
  rewrite Hc in Htr. cbn [fst trace] in Htr.
  apply app_inv_head in Htr. subst evs3.
  exists w', evs. repeat split; done.
Qed.

(** X7.  An input that is written and decoded to an image without frames
    is answered with the message of the emptiness check; neither the
    encoder nor the optimizer is called, and the clean-up still runs: it
    asks about each of the scratch files A, B and C, tries to remove each
    one that exists, and leaves none behind but those whose removal is
    refused. *)
Theorem frameless_image_is_an_error (env : Env) (input : bytes)
  (lossy colors : Z) (st : State) (img : Image) (w1 w2 : World) :
  write_file env (input_filename_full (id_in env st)) input
    (world (after_clock env st)) = (w1, inr tt) ->
  Image_open env (input_filename_full (id_in env st)) w1 = (w2, inr img) ->
  n_frames img = 0%nat ->
  snd (optimize_gif_with_pillow_and_gifsicle env true input lossy colors st)
    = inr (None,
           Some "Unexpected error during processing: Could not extract valid frames from GIF.")
  /\ exists evs : list event,
       trace (fst (optimize_gif_with_pillow_and_gifsicle
                     env true input lossy colors st))
         = (trace st ++ [EvTime;
                         EvWrite (input_filename_full (id_in env st)) input;
                         EvImageOpen (input_filename_full (id_in env st))]
              ++ evs)%list
       /\ Forall (cleanup_event (scratch_files (id_in env st))) evs
       /\ (forall p, p ∈ scratch_files (id_in env st) -> EvExists p ∈ evs)
       /\ (forall p, p ∈ scratch_files (id_in env st) ->
             is_Some (fs w2 !! p) -> EvRemove p ∈ evs)
       /\ (forall p, p ∈ scratch_files (id_in env st) ->
             is_Some (fs (world (fst (optimize_gif_with_pillow_and_gifsicle
                                        env true input lossy colors st))) !! p) ->
             p ∈ locked (world (fst (optimize_gif_with_pillow_and_gifsicle
                                       env true input lossy colors st)))).
Proof.
  intros Hw Ho Hn. destruct img; [|discriminate Hn].
  destruct (pipeline_finally env input lossy colors st)
    as (w' & evs & Hrun & Hclean & Hask & Hatt & Hleft).
  assert (Hbody : try_body env input lossy colors (id_in env st)
                    (after_clock env st)
                  = ({| world := w2;
                        trace := trace st ++
                          [EvTime;
                           EvWrite (input_filename_full (id_in env st)) input;
                           EvImageOpen (input_filename_full (id_in env st))] |},
                     inl (ValueError "Could not extract valid frames from GIF."))).
  { unfold_body. step_with Hw. step_with Ho.
    cbn [reduce_frames select_frames n_frames length seq fold_left lift].
    unfold raise. cbn [after_clock trace]. by rewrite <- !app_assoc. }
  rewrite Hbody in Hrun, Hatt. rewrite Hrun. cbn [fst snd trace world] in *.
  split; [reflexivity|]. exists evs.
  split; [by rewrite <- !app_assoc|]. repeat split; done.
Qed.

Lemma frameless_image_is_an_error_witness :
  snd (optimize_gif_with_pillow_and_gifsicle
         (Faults.with_decoder Sim.env Faults.no_frames) true Sim.gif4 200 64
         Sim.start)
    = inr (None,
           Some "Unexpected error during processing: Could not extract valid frames from GIF.").
Proof.
  refine (proj1 (frameless_image_is_an_error
                   (Faults.with_decoder Sim.env Faults.no_frames)
                   Sim.gif4 200 64 Sim.start []
                   (fst (Sim.write "temp_gifsicle_data/temp_in_full_17000000000.gif"
                           Sim.gif4
                           (world (after_clock Sim.env Sim.start))))
                   (fst (Sim.write "temp_gifsicle_data/temp_in_full_17000000000.gif"
                           Sim.gif4
                           (world (after_clock Sim.env Sim.start))))
                   _ _ _)); reflexivity.
Defined.

(** X8.  When the optimizer call raises, the result is an error message
    and C is never read.  For a non-zero exit the message carries the exit
    code and the stripped diagnostic output, or 'Unknown Gifsicle error'
    when that is empty; for any other exception, a timeout included, it is
    'Unexpected error during processing: ' followed by the exception's
    text. *)
Theorem optimizer_failure_message (env : Env) (input : bytes)
  (lossy colors : Z) (st : State) (img : Image) (sc : SaveCall)
  (w1 w2 w3 w4 : World) (e : exn) :
  write_file env (input_filename_full (id_in env st)) input
    (world (after_clock env st)) = (w1, inr tt) ->
  Image_open env (input_filename_full (id_in env st)) w1 = (w2, inr img) ->
  reduce_frames img = inr sc ->
  Image_save env (temp_filename_reduced (id_in env st)) sc w2 = (w3, inr tt) ->
  subprocess_run env (command lossy colors (id_in env st)) (Some 90) w3
    = (w4, inl e) ->
  snd (optimize_gif_with_pillow_and_gifsicle env true input lossy colors st)
    = inr (None,
           Some match e with
                | CalledProcessError rc err =>
                    "Gifsicle execution error (Code " ++ str_int rc ++ "): "
                      ++ (if is_empty_string (str_strip env err)
                          then "Unknown Gifsicle error"
                          else str_strip env err)
                | _ => "Unexpected error during processing: " ++ exn_str e
                end)
  /\ exists evs : list event,
       trace (fst (optimize_gif_with_pillow_and_gifsicle
                     env true input lossy colors st))
         = (trace st ++
              [EvTime;
               EvWrite (input_filename_full (id_in env st)) input;
               EvImageOpen (input_filename_full (id_in env st));
               EvImageSave (temp_filename_reduced (id_in env st)) sc;
               EvRun (command lossy colors (id_in env st))] ++ evs)%list
       /\ Forall (cleanup_event (scratch_files (id_in env st))) evs.
Proof.
  intros Hw Ho Hr Hs Hx.
  destruct (pipeline_of_body env input lossy colors st)
    as (w' & evs & Hrun & Hclean).
  assert (Hbody : try_body env input lossy colors (id_in env st)
                    (after_clock env st)
                  = ({| world := w4;
                        trace := trace st ++
                          [EvTime;
                           EvWrite (input_filename_full (id_in env st)) input;
                           EvImageOpen (input_filename_full (id_in env st));
                           EvImageSave (temp_filename_reduced (id_in env st)) sc;
                           EvRun (command lossy colors (id_in env st))] |},
                     inl e)).
  { unfold_body. step_with Hw. step_with Ho. rewrite Hr. cbn [lift].
    unfold ret. step_with Hs. step_with Hx.
    cbn [after_clock trace]. by rewrite <- !app_assoc. }
  rewrite Hbody in Hrun. rewrite Hrun. cbn [fst snd trace].
  split; [by destruct e|]. exists evs. split; [|done].
  by rewrite <- !app_assoc.
Qed.

Lemma optimizer_failure_message_witness :
  snd (optimize_gif_with_pillow_and_gifsicle
         (Sim.make Sim.ticking Faults.mute_gifsicle) true Sim.gif4 200 64
         Sim.start)
    = inr (None, Some "Gifsicle execution error (Code 2): Unknown Gifsicle error").
Proof.
  refine (proj1 (optimizer_failure_message
                   (Sim.make Sim.ticking Faults.mute_gifsicle)
                   Sim.gif4 200 64 Sim.start
                   (map (fun b => {| pixels := [b]; frame_duration := Some 40 |})
                        Sim.gif4)
                   {| first_frame := {| pixels := [Byte.x61]; frame_duration := Some 40 |};
                      save_all := true;
                      append_images := [{| pixels := [Byte.x63]; frame_duration := Some 40 |}];
                      duration := 80; loop := 0; optimize := false |}
                   _ _ _ _ (CalledProcessError 2 "  ")
                   _ _ _ _ _)); reflexivity.
Defined.

(** X9.  When the optimizer exits 0 and its output file C does not exist,
    the result is the message of the defensive check and C is not read:
    after the existence check come only the calls of the clean-up. *)
Theorem missing_output_is_an_error (env : Env) (input : bytes)
  (lossy colors : Z) (st : State) (img : Image) (sc : SaveCall)
  (w1 w2 w3 w4 : World) :
  write_file env (input_filename_full (id_in env st)) input
    (world (after_clock env st)) = (w1, inr tt) ->
  Image_open env (input_filename_full (id_in env st)) w1 = (w2, inr img) ->
  reduce_frames img = inr sc ->
  Image_save env (temp_filename_reduced (id_in env st)) sc w2 = (w3, inr tt) ->
  subprocess_run env (command lossy colors (id_in env st)) (Some 90) w3
    = (w4, inr tt) ->
  fs w4 !! output_filename (id_in env st) = None ->
  snd (optimize_gif_with_pillow_and_gifsicle env true input lossy colors st)
    = inr (None,
           Some "Unexpected error during processing: Gifsicle output file was not created.")
  /\ exists evs : list event,
       trace (fst (optimize_gif_with_pillow_and_gifsicle
                     env true input lossy colors st))
         = (trace st ++
              [EvTime;
               EvWrite (input_filename_full (id_in env st)) input;
               EvImageOpen (input_filename_full (id_in env st));
               EvImageSave (temp_filename_reduced (id_in env st)) sc;
               EvRun (command lossy colors (id_in env st));
               EvExists (output_filename (id_in env st))] ++ evs)%list
       /\ Forall (cleanup_event (scratch_files (id_in env st))) evs.
Proof.
  intros Hw Ho Hr Hs Hx Hnone.
  destruct (pipeline_of_body env input lossy colors st)
    as (w' & evs & Hrun & Hclean).
  assert (Hbody : try_body env input lossy colors (id_in env st)
                    (after_clock env st)
                  = ({| world := w4;
                        trace := trace st ++
                          [EvTime;
                           EvWrite (input_filename_full (id_in env st)) input;
                           EvImageOpen (input_filename_full (id_in env st));
                           EvImageSave (temp_filename_reduced (id_in env st)) sc;
                           EvRun (command lossy colors (id_in env st));
                           EvExists (output_filename (id_in env st))] |},
                     inl (FileNotFoundError "Gifsicle output file was not created."))).
  { unfold_body. step_with Hw. step_with Ho. rewrite Hr. cbn [lift].
    unfold ret. step_with Hs. step_with Hx. run_call.
    rewrite Hnone. rewrite bool_decide_false by (by intros [? ?]).
    cbn [negb after_clock trace]. by rewrite <- !app_assoc. }
  rewrite Hbody in Hrun. rewrite Hrun. cbn [fst snd trace].
  split; [reflexivity|]. exists evs. split; [|done].
  by rewrite <- !app_assoc.
Qed.

Lemma missing_output_is_an_error_witness :
  snd (optimize_gif_with_pillow_and_gifsicle
         (Sim.make Sim.ticking Faults.silent_gifsicle) true Sim.gif4 200 64
         Sim.start)
    = inr (None,
           Some "Unexpected error during processing: Gifsicle output file was not created.").
Proof.
  refine (proj1 (missing_output_is_an_error
                   (Sim.make Sim.ticking Faults.silent_gifsicle)
                   Sim.gif4 200 64 Sim.start
                   (map (fun b => {| pixels := [b]; frame_duration := Some 40 |})
                        Sim.gif4)
                   {| first_frame := {| pixels := [Byte.x61]; frame_duration := Some 40 |};
                      save_all := true;
                      append_images := [{| pixels := [Byte.x63]; frame_duration := Some 40 |}];
                      duration := 80; loop := 0; optimize := false |}
                   _ _ _ _ _ _ _ _ _ _)); reflexivity.
Defined.

(** ** The endpoint as a whole *)

Lemma parse_settings_raises (env : Env) (req : Request) (e : exn) :
  parse_settings env req = inl e -> exists msg, e = ValueError msg.
Proof.
  unfold parse_settings, int_form_get.
  destruct (form req !! "lossy") as [s|];
    [destruct (py_int env s); [|intros [= <-]; eauto]|];
    (destruct (form req !! "colors") as [s'|];
     [destruct (py_int env s'); [|intros [= <-]; eauto]|]);
    discriminate.
Qed.

(** X10.  The endpoint never raises and answers in one of three ways: 400
    with the no-files message when no part came under [file], whatever the
    settings are; 400 with the invalid-settings message when there are
    files and a setting does not parse; 200 with one entry per file
    otherwise.  Both 400 answers leave the state untouched: no file is
    processed. *)
Theorem endpoint_answers (env : Env) (avail : bool) (req : Request)
  (st : State) :
  exists (st' : State) (body : json_body) (code : Z),
    optimize_gif_endpoint env avail req st = (st', inr (body, code))
    /\ ((files_file req = [] /\ body = ErrorBody no_files_message
         /\ code = 400 /\ st' = st)
        \/ (files_file req <> []
            /\ (exists msg, parse_settings env req = inl (ValueError msg))
            /\ body = ErrorBody invalid_settings_message
            /\ code = 400 /\ st' = st)
        \/ (files_file req <> []
            /\ exists (l c : Z) (rs : list pydict),
                 parse_settings env req = inr (l, c)
                 /\ body = ResultsBody rs /\ code = 200
                 /\ length rs = length (files_file req))).
Proof.
  destruct (files_file req) as [|f fl] eqn:Hf.
  { exists st, (ErrorBody no_files_message), 400.
    unfold optimize_gif_endpoint, endpoint_with. rewrite Hf.
    split; [reflexivity|]. left. done. }
  assert (Hne : files_file req <> []) by (by rewrite Hf).
  destruct (parse_settings env req) as [e|[l c]] eqn:Hp.
  - destruct (parse_settings_raises env req e Hp) as [msg ->].
    exists st, (ErrorBody invalid_settings_message), 400. split.
    + unfold optimize_gif_endpoint.
      by rewrite (endpoint_with_invalid env _ req msg st Hne Hp).
    + right. left. rewrite <- Hf. eauto 10.
  - destruct (endpoint_one_entry_per_file env avail req l c st Hne Hp)
      as (st' & rs & Hrun & Hlen & _).
    exists st', (ResultsBody rs), 200. split; [done|].
    right. right. rewrite <- Hf. eauto 10.
Qed.

(** With the optimizer unavailable the loop touches nothing. *)
Lemma process_files_unavailable (env : Env) (l c : Z)
  (files : list FileStorage) (results : list pydict) (st : State) :
  process_files env (optimize_gif_with_pillow_and_gifsicle env false)
    l c files results st
  = (st, inr (results ++ map (unavailable_entry env) files)%list).
Proof.
  revert results. induction files as [|file rest IH]; intros results.
  - cbn. unfold ret. by rewrite app_nil_r.
  - cbn [process_files map]. unfold bind.
    assert (process_file env (optimize_gif_with_pillow_and_gifsicle env false)
              l c file st = (st, inr (unavailable_entry env file))) as ->.
    { unfold unavailable_entry. destruct (is_gif file) eqn:Hg.
      - by rewrite process_file_gif.
      - by rewrite process_file_rejected. }
    rewrite IH. by rewrite <- app_assoc.
Qed.

(** X11.  With the optimizer unavailable, a request with files and
    settings that parse is answered 200 without touching the state: every
    GIF part gets the fixed unavailability message with null data and
    size, every other part its rejection entry. *)
Theorem unavailable_endpoint (env : Env) (req : Request) (l c : Z)
  (st : State) :
  files_file req <> [] ->
  parse_settings env req = inr (l, c) ->
  optimize_gif_endpoint env false req st
    = (st, inr (ResultsBody (map (unavailable_entry env) (files_file req)), 200))
  /\ forall file, file ∈ files_file req -> is_gif file = true ->
       unavailable_entry env file
       = [("filename", PyStr (secure_filename env (filename file)));
          ("original_size", PyInt (Z.of_nat (length (content file))));
          ("optimized_data", PyNone);
          ("optimized_size", PyNone);
          ("error", PyStr unavailable_message)].
Proof.
  intros Hne Hp. split.
  - unfold optimize_gif_endpoint.
    rewrite (endpoint_with_parsed env _ req l c st Hne Hp).
    by rewrite process_files_unavailable.
  - intros file _ Hg. unfold unavailable_entry. by rewrite Hg.
Qed.

Lemma unavailable_endpoint_witness :
  optimize_gif_endpoint Sim.env false
    {| files_file := [Sim.upload "a.gif" "image/gif" Sim.gif4];
       form := ∅ |} Sim.start
  = (Sim.start,
     inr (ResultsBody
            [[("filename", PyStr "a.gif"); ("original_size", PyInt 4);
              ("optimized_data", PyNone); ("optimized_size", PyNone);
              ("error", PyStr unavailable_message)]], 200)).
Proof.
  refine (proj1 (unavailable_endpoint Sim.env
                   {| files_file := [Sim.upload "a.gif" "image/gif" Sim.gif4];
                      form := ∅ |} 200 64 Sim.start _ _)).
  - discriminate.
  - reflexivity.
Defined.

(** X12.  In a 200 answer the entry of each file has one of four shapes:
    the four-key rejection entry for a part that is not a GIF; and for a
    GIF part either the base64 text and the length of non-empty bytes with
    a null error, or an error message with null data and size, or all
    three null (the pipeline returned empty bytes). *)
Theorem entry_shapes (env : Env) (avail : bool) (req : Request) (l c : Z)
  (st : State) :
  files_file req <> [] ->
  parse_settings env req = inr (l, c) ->
  exists (st' : State) (rs : list pydict),
    optimize_gif_endpoint env avail req st = (st', inr (ResultsBody rs, 200))
    /\ Forall2
         (fun file entry =>
            (is_gif file = false /\ entry = rejected_entry env file)
            \/ (is_gif file = true
                /\ exists data size error,
                     entry =
                       [("filename", PyStr (secure_filename env (filename file)));
                        ("original_size",
                         PyInt (Z.of_nat (length (content file))));
                        ("optimized_data", data);
                        ("optimized_size", size);
                        ("error", error)]
                     /\ ((exists b, b <> [] /\ data = PyStr (b64encode b)
                                    /\ size = PyInt (Z.of_nat (length b))
                                    /\ error = PyNone)
                         \/ (exists msg, data = PyNone /\ size = PyNone
                                         /\ error = PyStr msg)
                         \/ (data = PyNone /\ size = PyNone
                             /\ error = PyNone))))
         (files_file req) rs.
Proof.
  intros Hne Hp. unfold optimize_gif_endpoint.
  rewrite (endpoint_with_parsed env _ req l c st Hne Hp).
  destruct (process_files_real env avail l c (files_file req) st)
    as (st' & rs & -> & Hall).
  exists st', rs. split; [reflexivity|].
  eapply Forall2_impl; [exact Hall|].
  intros file entry [[Hg ->]|(Hg & r & -> & Hone)]; [by left|].
  right. split; [done|].
  destruct Hone as [[b ->]|[msg ->]].
  - destruct b as [|x b].
    + do 3 eexists. split; [reflexivity|]. right. right. done.
    + do 3 eexists. split; [reflexivity|]. left.
      exists (x :: b). done.
  - do 3 eexists. split; [reflexivity|]. right. left. eauto.
Qed.

Lemma entry_shapes_witness :
  exists (st' : State) (rs : list pydict),
    optimize_gif_endpoint Sim.env true
      {| files_file := [Sim.upload "a.gif" "image/gif" Sim.gif4;
                        Sim.upload "b.png" "image/png" Sim.gif1];
         form := ∅ |} Sim.start
      = (st', inr (ResultsBody rs, 200))
    /\ length rs = 2%nat.
Proof.
  destruct (entry_shapes Sim.env true
              {| files_file := [Sim.upload "a.gif" "image/gif" Sim.gif4;
                                Sim.upload "b.png" "image/png" Sim.gif1];
                 form := ∅ |} 200 64 Sim.start)
    as (st' & rs & H & Hall).
  - discriminate.
  - reflexivity.
  - exists st', rs. split; [exact H|].
    symmetry. exact (Forall2_length _ _ _ Hall).
Defined.

(** The calls of the loop over the files are calls for GIF parts. *)
Lemma process_files_events (env : Env) (avail : bool) (l c : Z)
  (all files : list FileStorage) (results : list pydict) (st : State) :
  (forall f, f ∈ files -> f ∈ all) ->
  exists evs : list event,
    trace (fst (process_files env
                  (optimize_gif_with_pillow_and_gifsicle env avail)
                  l c files results st)) = (trace st ++ evs)%list
    /\ Forall (request_event all l c) evs.
Proof.
  revert results st. induction files as [|file rest IH]; intros results st Hsub.
  - exists []. cbn. by rewrite app_nil_r.
  - cbn [process_files]. unfold bind.
    destruct (is_gif file) eqn:Hg.
    + rewrite process_file_gif by done.
      destruct (pipeline_own_events env avail (content file) l c st)
        as (evs1 & Htr1 & Hown).
      destruct (pipeline_total env avail (content file) l c st)
        as (st1 & r & Hrun & _).
      rewrite Hrun in Htr1 |- *. cbn [fst] in Htr1.
      destruct (IH (results ++ [pipeline_entry env file r])%list st1)
        as (evs2 & Htr2 & Hall2).
      { intros f Hf. apply Hsub, elem_of_cons. by right. }
      exists (evs1 ++ evs2)%list. rewrite Htr2, Htr1, app_assoc.
      split; [reflexivity|]. apply Forall_app. split; [|done].
      eapply Forall_impl; [exact Hown|]. intros ev Hev.
      exists file, (id_in env st). split; [|done].
      apply Hsub, elem_of_cons. by left.
    + rewrite process_file_rejected by done.
      apply IH. intros f Hf. apply Hsub, elem_of_cons. by right.
Qed.

(** X13.  Every call made while a request is served belongs to the
    invocation for one of its GIF parts, with the settings parsed from the
    request: what is written to disk is the content of a GIF part, never
    that of a rejected part, and every gifsicle command line carries the
    clamped lossy and colors values.  A request answered 400 makes no
    call. *)
Theorem endpoint_calls_serve_gif_parts (env : Env) (avail : bool)
  (req : Request) (st : State) :
  exists evs : list event,
    trace (fst (optimize_gif_endpoint env avail req st))
      = (trace st ++ evs)%list
    /\ match parse_settings env req with
       | inr (l, c) => Forall (request_event (files_file req) l c) evs
       | inl _ => evs = []
       end.
Proof.
  destruct (files_file req) as [|f fl] eqn:Hf.
  { exists []. unfold optimize_gif_endpoint, endpoint_with. rewrite Hf.
    cbn. rewrite app_nil_r. split; [reflexivity|].
    by destruct (parse_settings env req) as [e|[l c]]. }
  assert (Hne : files_file req <> []) by (by rewrite Hf).
  destruct (parse_settings env req) as [e|[l c]] eqn:Hp.
  - destruct (parse_settings_raises env req e Hp) as [msg ->].
    exists []. unfold optimize_gif_endpoint.
    rewrite (endpoint_with_invalid env _ req msg st Hne Hp).
    cbn. by rewrite app_nil_r.
  - unfold optimize_gif_endpoint.
    rewrite (endpoint_with_parsed env _ req l c st Hne Hp).
    destruct (process_files_events env avail l c (files_file req)
                (files_file req) [] st) as (evs & Htr & Hall); [done|].
    exists evs. rewrite <- Hf. split; [|done].
    by destruct (process_files env _ l c (files_file req) [] st)
      as [st' [e|rs]].
Qed.

(** X14.  Each entry of a 200 answer stands at the position of its file
    and carries the sanitized name of that file and the number of bytes
    uploaded, whether the file was rejected, failed or succeeded; entries
    of GIF parts have the key [optimized_size], those of other parts do
    not. *)
Theorem entries_follow_upload_order (env : Env) (avail : bool)
  (req : Request) (l c : Z) (st : State) :
  files_file req <> [] ->
  parse_settings env req = inr (l, c) ->
  exists st' results,
    optimize_gif_endpoint env avail req st = (st', inr (ResultsBody results, 200))
    /\ length results = length (files_file req)
    /\ forall (i : nat) file, files_file req !! i = Some file ->
         exists entry,
           results !! i = Some entry
           /\ dict_get entry "filename"
                = Some (PyStr (secure_filename env (filename file)))
           /\ dict_get entry "original_size"
                = Some (PyInt (Z.of_nat (length (content file))))
           /\ has_key entry "optimized_data" = true
           /\ has_key entry "error" = true
           /\ has_key entry "optimized_size" = is_gif file.
Proof. apply endpoint_one_entry_per_file. Qed.

Lemma entries_follow_upload_order_witness :
  exists st' results,
    optimize_gif_endpoint Sim.env true
      {| files_file := [Sim.upload "b.png" "image/png" Sim.gif1;
                        Sim.upload "a.gif" "image/gif" Sim.gif4];
         form := {[ "colors" := "300" ]} |} Sim.start
      = (st', inr (ResultsBody results, 200))
    /\ length results = 2%nat.
Proof.
  destruct (entries_follow_upload_order Sim.env true
              {| files_file := [Sim.upload "b.png" "image/png" Sim.gif1;
                                Sim.upload "a.gif" "image/gif" Sim.gif4];
                 form := {[ "colors" := "300" ]} |} 200 256 Sim.start)
    as (st' & rs & H & Hlen & _).
  - discriminate.
  - vm_compute. reflexivity.
  - exists st', rs. split; [exact H | exact Hlen].
Defined.

(** ** The reduced animation *)

(** X16.  The reduced animation plays as long as the input does when the
    input has an even number of frames, and one original frame duration
    longer when it has an odd number (taking the first frame's duration,
    or 100, as the duration of every input frame). *)
Theorem playback_time (img : Image) (sc : SaveCall) :
  reduce_frames img = inr sc ->
  Z.of_nat (length (saved_frames sc)) * duration sc
  = Z.of_nat (n_frames img) * info_get_duration img 100
    + (if Nat.even (n_frames img) then 0 else info_get_duration img 100).
Proof.
  intros Hr. destruct (reduce_frames_saved img sc Hr) as (-> & -> & _).
  rewrite select_frames_length.
  destruct (Nat.even (n_frames img)) eqn:E.
  - apply Nat.even_spec in E as [k Hk]. rewrite Hk.
    replace ((2 * k + 1) / 2)%nat with k by div_lia. lia.
  - assert (Ho : Nat.odd (n_frames img) = true)
      by (by rewrite <- Nat.negb_even, E).
    apply Nat.odd_spec in Ho as [k Hk]. rewrite Hk.
    replace ((2 * k + 1 + 1) / 2)%nat with (k + 1)%nat by div_lia. lia.
Qed.

Lemma playback_time_witness :
  Z.of_nat (length (saved_frames
                      {| first_frame := {| pixels := []; frame_duration := Some 30 |};
                         save_all := true;
                         append_images := [{| pixels := []; frame_duration := None |}];
                         duration := 60; loop := 0; optimize := false |}))
    * 60 = 3 * 30 + 30.
Proof.
  exact (playback_time
           [{| pixels := []; frame_duration := Some 30 |};
            {| pixels := []; frame_duration := None |};
            {| pixels := []; frame_duration := None |}]
           {| first_frame := {| pixels := []; frame_duration := Some 30 |};
              save_all := true;
              append_images := [{| pixels := []; frame_duration := None |}];
              duration := 60; loop := 0; optimize := false |}
           eq_refl).
Defined.

(** ** The result on success *)

(** X17.  When every step succeeds, that is the input is written, decoded
    and reduced, the reduced image is saved, the optimizer exits 0 and its
    output file C exists, the pipeline returns exactly the bytes read from
    C, with no error message. *)
Theorem success_returns_output_bytes (env : Env) (input : bytes)
  (lossy colors : Z) (st : State) (img : Image) (sc : SaveCall)
  (w1 w2 w3 w4 w5 : World) (b : bytes) :
  write_file env (input_filename_full (id_in env st)) input
    (world (after_clock env st)) = (w1, inr tt) ->
  Image_open env (input_filename_full (id_in env st)) w1 = (w2, inr img) ->
  reduce_frames img = inr sc ->
  Image_save env (temp_filename_reduced (id_in env st)) sc w2 = (w3, inr tt) ->
  subprocess_run env (command lossy colors (id_in env st)) (Some 90) w3
    = (w4, inr tt) ->
  is_Some (fs w4 !! output_filename (id_in env st)) ->
  read_file env (output_filename (id_in env st)) w4 = (w5, inr b) ->
  snd (optimize_gif_with_pillow_and_gifsicle env true input lossy colors st)
    = inr (Some b, None).
Proof.
  intros Hw Ho Hr Hs Hx Hex Hrd.
  destruct (pipeline_of_body env input lossy colors st)
    as (w' & evs & Hrun & _).
  assert (Hbody : snd (try_body env input lossy colors (id_in env st)
                         (after_clock env st)) = inr b).
  { unfold_body. step_with Hw. step_with Ho. rewrite Hr. cbn [lift].
    unfold ret. step_with Hs. step_with Hx. run_call.
    rewrite bool_decide_true by done. cbn [negb]. by step_with Hrd. }
  rewrite Hrun. cbn [snd]. by rewrite Hbody.
Qed.

Lemma success_returns_output_bytes_witness :
  snd (optimize_gif_with_pillow_and_gifsicle Sim.env true Sim.gif4 200 64
         Sim.start)
    = inr (Some (bytes_of_string "ac"), None).
Proof.
  refine (success_returns_output_bytes Sim.env Sim.gif4 200 64 Sim.start
            (map (fun b => {| pixels := [b]; frame_duration := Some 40 |})
                 Sim.gif4)
            {| first_frame := {| pixels := [Byte.x61]; frame_duration := Some 40 |};
               save_all := true;
               append_images := [{| pixels := [Byte.x63]; frame_duration := Some 40 |}];
               duration := 80; loop := 0; optimize := false |}
            _ _ _ _ _ _ _ _ _ _ _ _ _); try reflexivity.
  vm_compute. eexists. reflexivity.
Defined.

(** ** The encoded data *)

Lemma base64_encode_length (data : bytes) :
  String.length (Base64.encode data) = (4 * ((length data + 2) / 3))%nat.
Proof.
  assert (H : forall (n : nat) (d : bytes), (length d < n)%nat ->
            String.length (Base64.encode d) = (4 * ((length d + 2) / 3))%nat).
  { induction n as [|n IH]; intros d Hd; [lia|].
    destruct d as [|x [|y [|z rest]]]; try reflexivity.
    cbn [Base64.encode String.length length] in *.
    rewrite IH by lia. div_lia. }
  apply (H (S (length data))). lia.
Qed.

Lemma b64encode_length (data : bytes) :
  String.length (b64encode data) = (4 * ((length data + 2) / 3))%nat.
Proof. apply base64_encode_length. Qed.

(** X18.  In an entry that carries data, the text of [optimized_data] is
    four characters for every three bytes counted by [optimized_size],
    rounded up: its length is 4 * ceil(optimized_size / 3). *)
Theorem optimized_data_length (env : Env) (file : FileStorage)
  (r : option bytes * option string) (s : string) (n : Z) :
  dict_get (pipeline_entry env file r) "optimized_data" = Some (PyStr s) ->
  dict_get (pipeline_entry env file r) "optimized_size" = Some (PyInt n) ->
  Z.of_nat (String.length s) = 4 * ((n + 2) / 3).
Proof.
  destruct r as [[[|x b]|] [[|ch e]|]]; unfold pipeline_entry, dict_get;
    cbn -[b64encode length]; intros Hd Hs; try discriminate;
    (assert (Es : b64encode (x :: b) = s) by congruence);
    (assert (En : Z.of_nat (length (x :: b)) = n) by congruence);
    subst s n; rewrite b64encode_length; div_lia.
Qed.

Lemma optimized_data_length_witness :
  Z.of_nat (String.length "R0lGODlhAQ==") = 4 * ((7 + 2) / 3).
Proof.
  apply (optimized_data_length Sim.env
           (Sim.upload "a.gif" "image/gif" Sim.gif1)
           (Some (bytes_of_string "GIF89a" ++ [Byte.x01])%list, None));
    reflexivity.
Defined.
